(** * jsonschema-gentypes: the schema-to-type translation engine

    A shallow embedding of [jsonschema_gentypes/__init__.py]: the Type IR
    classes, name and description synthesis, and the draft-4 translation
    engine ([API] and [APIv4]; drafts 6 and 7 inherit it unchanged).

    Python objects that the program mutates or compares by identity live in
    stores: schema dictionaries in [heap], Type IR nodes in [types].  The
    resolver's scope stack and the engine's reference cache are fields of the
    same state, threaded through every call. *)

From Stdlib Require Import ZArith Lia Ascii String DecimalString SpecFloat.
From stdpp Require Import base option list strings gmap.

Open Scope string_scope.
Open Scope list_scope.

(** ** Python values *)

(** Exceptions the engine can raise.  [OutsideDeclaredType] marks an input
    that does not inhabit the type the source declares for it (a [title]
    that is not a [str], an [enum] member that is a mapping, ...): what
    Python does with such a value is outside this embedding. *)
Inductive exn :=
| NotImplementedError
| AttributeError
| AssertionError
| IndexError
| KeyError
| TypeError
| RuntimeError
| RefResolutionError
| OutsideDeclaredType.

#[global] Instance exn_eq_dec : EqDecision exn.
Proof. solve_decision. Defined.

(** Address of a dictionary object. *)
Definition loc := nat.

(** A JSON value as Python holds it.  Dictionaries are objects: [JDict r]
    is a reference to the dictionary stored at [r]. *)
#[local] Unset Elimination Schemes.
Inductive json :=
| JNull
| JBool (b : bool)
| JInt (z : Z)
| JFloat (f : spec_float)
| JStr (s : string)
| JList (l : list json)
| JDict (r : loc).
#[local] Set Elimination Schemes.

(** A Python [dict] with string keys: insertion-ordered, keys unique. *)
Definition pydict (A : Type) := list (string * A).

Section PyDict.
Context {A : Type}.

Fixpoint dict_get (k : string) (d : pydict A) : option A :=
  match d with
  | [] => None
  | (k', v) :: d' => if String.eqb k k' then Some v else dict_get k d'
  end.

Definition dict_has (k : string) (d : pydict A) : bool :=
  match dict_get k d with Some _ => true | None => false end.

(** [d[k] = v]: an existing key keeps its position, a new one goes last. *)
Fixpoint dict_set (k : string) (v : A) (d : pydict A) : pydict A :=
  match d with
  | [] => [(k, v)]
  | (k', v') :: d' =>
      if String.eqb k k' then (k, v) :: d' else (k', v') :: dict_set k v d'
  end.

(** [del d[k]], used by the source only under [if k in d]. *)
Fixpoint dict_del (k : string) (d : pydict A) : pydict A :=
  match d with
  | [] => []
  | (k', v') :: d' =>
      if String.eqb k k' then d' else (k', v') :: dict_del k d'
  end.

(** [d.update(other)]. *)
Definition dict_update (d other : pydict A) : pydict A :=
  fold_left (fun acc kv => dict_set kv.1 kv.2 acc) other d.

Definition dict_keys (d : pydict A) : list string := map fst d.
End PyDict.

(** ** Python strings *)

Definition ord (c : ascii) : nat := nat_of_ascii c.

(** [char_range(char1, char2)]: the characters from [char1] to [char2],
    inclusive. *)
Definition char_range (char1 char2 : ascii) : list ascii :=
  map ascii_of_nat (seq (ord char1) (ord char2 + 1 - ord char1)).

Definition char_in (c : ascii) (l : list ascii) : bool :=
  existsb (Ascii.eqb c) l.

Definition is_lower (c : ascii) : bool := char_in c (char_range "a" "z").
Definition is_upper (c : ascii) : bool := char_in c (char_range "A" "Z").
Definition is_digit (c : ascii) : bool := char_in c (char_range "0" "9").

Definition to_upper (c : ascii) : ascii :=
  if is_lower c then ascii_of_nat (ord c - 32) else c.
Definition to_lower (c : ascii) : ascii :=
  if is_upper c then ascii_of_nat (ord c + 32) else c.

(** [str.isspace] on one character (ASCII). *)
Definition isspace (c : ascii) : bool :=
  let n := ord c in
  (9 <=? n)%nat && (n <=? 13)%nat || (28 <=? n)%nat && (n <=? 32)%nat.

Definition chars (s : string) : list ascii := list_ascii_of_string s.
Definition join (l : list ascii) : string := string_of_list_ascii l.

Definition str_upper (s : string) : string := join (map to_upper (chars s)).
Definition str_lower (s : string) : string := join (map to_lower (chars s)).

(** [str.title]: a cased character that follows an uncased one is
    upper-cased, one that follows a cased character is lower-cased. *)
Fixpoint title_from (previous_is_cased : bool) (l : list ascii) : list ascii :=
  match l with
  | [] => []
  | c :: l' =>
      let cased := is_lower c || is_upper c in
      (if previous_is_cased then to_lower c else to_upper c)
        :: title_from cased l'
  end.
Definition str_title (s : string) : string := join (title_from false (chars s)).

Definition str_in (s : string) (l : list string) : bool :=
  existsb (String.eqb s) l.

Definition startswith (s p : string) : bool := String.prefix p s.

(** [str(n)] for an [int]. *)
Definition str_of_Z (z : Z) : string := NilZero.string_of_int (Z.to_int z).

(** Truth value of a float: zero is false, everything else (an infinity, a
    NaN) is true. *)
Definition float_truthy (f : spec_float) : bool :=
  match f with S754_zero _ => false | _ => true end.

(** [f == n] for a float [f] and an [int] [n]; Python compares the exact
    values. *)
Definition float_eq_Z (f : spec_float) (n : Z) : bool :=
  match f with
  | S754_zero _ => (n =? 0)%Z
  | S754_finite s m e =>
      let v := if s then (- Z.pos m)%Z else Z.pos m in
      if (0 <=? e)%Z then (v * 2 ^ e =? n)%Z
      else (Z.pos m mod 2 ^ (- e) =? 0)%Z && (v / 2 ^ (- e) =? n)%Z
  | _ => false
  end.

(** The double-quote character, which member lines print around string
    values. *)
Definition dquote : string := String (ascii_of_nat 34) EmptyString.

(** ** Results of pure functions *)

Inductive pyres (A : Type) :=
| Val (a : A)
| Exc (e : exn).
Arguments Val {A} a.
Arguments Exc {A} e.

#[global] Instance pyres_ret : MRet pyres := fun A a => Val a.
#[global] Instance pyres_bind : MBind pyres :=
  fun A B f m => match m with Val a => f a | Exc e => Exc e end.

Fixpoint pyres_mapM {A B} (f : A -> pyres B) (l : list A) : pyres (list B) :=
  match l with
  | [] => Val []
  | a :: l' => b ← f a; bs ← pyres_mapM f l'; Val (b :: bs)
  end.

(** Python truth value of a JSON value that is not a dictionary. *)
Definition scalar_truthy (v : json) : option bool :=
  match v with
  | JNull => Some false
  | JBool b => Some b
  | JInt z => Some (negb (z =? 0)%Z)
  | JFloat f => Some (float_truthy f)
  | JStr s => Some (negb (String.eqb s ""))
  | JList l => Some (match l with [] => false | _ => true end)
  | JDict _ => None
  end.

(** ** Name and description synthesis *)

Section Synthesis.
(** [unidecode.unidecode] and the text Python prints for a float are not
    part of this repository: both are taken as given. *)
Variable unidecode : string -> string.
Variable float_str : spec_float -> string.

(** [str(value)] for a value that is neither a list nor a dictionary. *)
Definition py_str (value : json) : option string :=
  match value with
  | JNull => Some "None"
  | JBool true => Some "True"
  | JBool false => Some "False"
  | JInt z => Some (str_of_Z z)
  | JFloat f => Some (float_str f)
  | JStr s => Some s
  | JList _ | JDict _ => None
  end.

Definition authorised_char : list ascii :=
  char_range "a" "z" ++ char_range "A" "Z" ++ char_range "0" "9".

Definition python_keywords : list string :=
  [ "and"; "as"; "assert"; "break"; "class"; "continue"; "def"; "del";
    "elif"; "else"; "except"; "false"; "finally"; "for"; "from"; "global";
    "if"; "import"; "in"; "is"; "lambda"; "none"; "nonlocal"; "not"; "or";
    "pass"; "raise"; "return"; "true"; "try"; "while"; "with"; "yield" ].

(** The base name [get_name] starts from: the schema's [title] when it has
    one, the proposed name otherwise; [assert name is not None]. *)
Definition base_name (schema : option (pydict json))
    (proposed_name : option string) : pyres string :=
  match schema ≫= dict_get "title" with
  | Some (JStr title) => Val title
  | Some JNull => Exc AssertionError
  | Some _ => Exc OutsideDeclaredType
  | None =>
      match proposed_name with
      | Some name => Val name
      | None => Exc AssertionError
      end
  end.

Definition get_name (schema : option (pydict json))
    (proposed_name : option string) (upper : bool) : pyres string :=
  (* Get the base name *)
  let has_title :=
    match schema with Some d => dict_has "title" d | None => false end in
  name ← base_name schema proposed_name;
  (* Unaccent, ... *)
  let name := unidecode name in
  (* Remove unauthorised char *)
  let name :=
    join (map (fun c => if char_in c authorised_char then c else " "%char)
              (chars name)) in
  (* No number at first position *)
  match chars name with
  | [] => Exc IndexError
  | c0 :: _ =>
      let name := if char_in c0 (char_range "0" "9")
                  then "num " +:+ name else name in
      (* No python keyword *)
      let name := if str_in (str_lower name) python_keywords
                  then name +:+ " name" else name in
      let prefix := if has_title then "" else "_" in
      if upper then
        (* Upper case, spaces become underscores *)
        Val (prefix +:+
             join (map (fun char => if isspace char then "_"%char else char)
                       (chars (str_upper name))))
      else
        (* Title case, spaces removed *)
        Val (prefix +:+
             join (List.filter (fun char => negb (isspace char))
                               (chars (str_title name))))
  end.

(** Keys that [get_description] does not render as [key: value]. *)
Definition consumed_keys : list string :=
  [ "title"; "description"; "$ref"; "$schema"; "$id"; "const"; "type";
    "items"; "additionalProperties" ].

(** The first loop of [get_description], over [("title", "description")]. *)
Fixpoint description_head (schema : pydict json) (keys : list string)
    (result : list string) : pyres (list string) :=
  match keys with
  | [] => Val result
  | key :: keys' =>
      match dict_get key schema with
      | None => description_head schema keys' result
      | Some (JStr text) =>
          let result := match result with [] => [] | _ => result ++ [""] end in
          description_head schema keys' (result ++ [text])
      | Some _ => Exc OutsideDeclaredType
      end
  end.

(** The second loop, over [schema.items()]. *)
Fixpoint description_items (first : bool) (result : list string)
    (items : pydict json) : list string :=
  match items with
  | [] => result
  | (key, value) :: items' =>
      match py_str value with
      | Some text =>
          if str_in key consumed_keys then description_items first result items'
          else
            let result :=
              if first then match result with [] => [] | _ => result ++ [""] end
              else result in
            description_items false (result ++ [key +:+ ": " +:+ text]) items'
      | None => description_items first result items'
      end
  end.

Definition get_description (schema : pydict json) : pyres (list string) :=
  result ← description_head schema ["title"; "description"] [];
  Val (description_items true result schema).

(** ** Type IR *)

(** [TypeEnum.definition]: one member line per value. *)
Definition enum_member (value : json) : pyres string :=
  match value with
  | JStr text =>
      name ← get_name (Some [("title", JStr text)]) None true;
      Val ("    " +:+ name +:+ " = " +:+ dquote +:+ text +:+ dquote)
  | _ =>
      match py_str value with
      | Some text =>
          name ← get_name (Some [("title", JStr text)]) None true;
          Val ("    " +:+ name +:+ " = " +:+ text)
      | None => Exc OutsideDeclaredType
      end
  end.

Definition TypeEnum_definition (name : string) (values : list json)
    (descriptions : list string) : pyres (list string) :=
  let result := [""; ""] ++ map (fun d => "# " +:+ d) descriptions
                ++ ["class " +:+ name +:+ "(Enum):"] in
  members ← pyres_mapM enum_member values;
  Val (result ++ members).
End Synthesis.

(** ** Type IR objects *)

(** Address of a Type IR object. *)
Definition tloc := nat.

(** The classes of the Type IR.  A node refers to its sub-types by address:
    two places that hold the same address share one Python object. *)
Inductive node :=
| LiteralType (const : json)
| BuiltinType (name : string)
| NativeType (name package : string)
| CombinedType (base : tloc) (sub_types : list tloc)
| TypeAlias (name : string) (sub_type : tloc) (descriptions : list string)
| TypeEnum (name : string) (values : list json) (descriptions : list string)
| TypedDictType (name : string) (struct : pydict tloc)
    (descriptions : list string).

(** [isinstance(the_type, NamedType)]. *)
Definition is_NamedType (n : node) : bool :=
  match n with
  | TypeAlias _ _ _ | TypeEnum _ _ _ | TypedDictType _ _ _ => true
  | _ => false
  end.

(** A Type object: its class and fields, and [_comments] ([None] and the
    empty list are indistinguishable through [comments()]). *)
Record type_obj := TypeObj {
  ty_node : node;
  ty_comments : list string
}.

#[global] Instance type_obj_inhabited : Inhabited type_obj :=
  populate (TypeObj (BuiltinType "") []).

(** [configuration.AdditionalProperties]. *)
Inductive AdditionalProperties := ONLY_EXPLICIT | ALWAYS.

(** ** Engine state *)

Record state := State {
  heap : list (pydict json);      (* the dictionary objects *)
  types : list type_obj;          (* the Type objects *)
  scopes : list string;           (* the resolver's scope stack, top first *)
  ref_type : gmap string tloc;    (* self.ref_type: types by reference *)
  resolve_log : list string       (* the references handed to the resolver,
                                     latest first *)
}.

(** What an engine is built from ([API.__init__]).  [resolver_lookup] is the
    resolver's dereferencing of a reference against the scope stack and the
    documents it holds, which are dictionary objects of the heap; it gives
    the resolved URL and the resolved value.  [resolver_has_resolve] tells
    whether the resolver object has a [resolve] method. *)
Record api := Api {
  resolver_lookup :
    list string -> list (pydict json) -> string -> option (string * json);
  resolver_has_resolve : bool;
  additional_properties : AdditionalProperties
}.

(** Outcome of a call: a value, an exception, or a recursion that went deeper
    than the depth the run was given.  Each carries the state reached. *)
Inductive result (A : Type) :=
| Ok (a : A) (s : state)
| Raise (e : exn) (s : state)
| NoFuel (s : state).
Arguments Ok {A} a s.
Arguments Raise {A} e s.
Arguments NoFuel {A} s.

Definition M (A : Type) := state -> result A.

Definition ret {A} (a : A) : M A := fun s => Ok a s.
Definition raise {A} (e : exn) : M A := fun s => Raise e s.
Definition bind {A B} (m : M A) (f : A -> M B) : M B :=
  fun s =>
    match m s with
    | Ok a s' => f a s'
    | Raise e s' => Raise e s'
    | NoFuel s' => NoFuel s'
    end.

Notation "'do' x <- m ; k" := (bind m (fun x => k))
  (at level 10, x name, m at level 100, k at level 200).
Notation "'do' ' p <- m ; k" := (bind m (fun x => let 'p := x in k))
  (at level 10, p pattern, m at level 100, k at level 200).
Notation "m ;;; k" := (bind m (fun _ => k))
  (at level 100, k at level 200, right associativity).

(** A pure function's result, raised or returned. *)
Definition lift {A} (r : pyres A) : M A :=
  match r with Val a => ret a | Exc e => raise e end.

(** [try: body finally: final]. *)
Definition try_finally {A} (body : M A) (final : M unit) : M A :=
  fun s =>
    match body s with
    | Ok a s1 =>
        match final s1 with
        | Ok _ s2 => Ok a s2
        | Raise e s2 => Raise e s2
        | NoFuel s2 => NoFuel s2
        end
    | Raise e s1 =>
        match final s1 with
        | Ok _ s2 => Raise e s2
        | Raise e' s2 => Raise e' s2
        | NoFuel s2 => NoFuel s2
        end
    | NoFuel s1 => NoFuel s1
    end.

Definition when (b : bool) (m : M unit) : M unit := if b then m else ret tt.

Fixpoint for_each {A B} (f : A -> M B) (l : list A) : M (list B) :=
  match l with
  | [] => ret []
  | a :: l' => do b <- f a; do bs <- for_each f l'; ret (b :: bs)
  end.

(** *** Dictionary objects *)

Definition read (r : loc) : M (pydict json) := fun s => Ok (heap s !!! r) s.

Definition new_dict (d : pydict json) : M loc :=
  fun s =>
    Ok (length (heap s))
       (State (heap s ++ [d]) (types s) (scopes s) (ref_type s) (resolve_log s)).

Definition write (r : loc) (d : pydict json) : M unit :=
  fun s =>
    Ok tt (State (<[r := d]> (heap s)) (types s) (scopes s) (ref_type s)
                 (resolve_log s)).

(** [schema.get(key)], with [None] for a missing key. *)
Definition get_or_None (key : string) (d : pydict json) : json :=
  default JNull (dict_get key d).

(** [bool(value)]. *)
Definition truthy (value : json) : M bool :=
  match value with
  | JDict r => do d <- read r; ret (match d with [] => false | _ => true end)
  | _ => ret (default false (scalar_truthy value))
  end.

(** [target.update(other)] for a dictionary object [target]. *)
Definition update_from (target : loc) (other : json) : M unit :=
  match other with
  | JDict r =>
      do d <- read target; do d' <- read r; write target (dict_update d d')
  | JStr _ | JList _ => raise OutsideDeclaredType
  | _ => raise TypeError
  end.

(** *** Type objects *)

Definition new_type (n : node) : M tloc :=
  fun s =>
    Ok (length (types s))
       (State (heap s) (types s ++ [TypeObj n []]) (scopes s) (ref_type s)
              (resolve_log s)).

Definition type_at (t : tloc) : M type_obj := fun s => Ok (types s !!! t) s.

(** [Type.comments]. *)
Definition comments (t : tloc) : M (list string) :=
  do o <- type_at t; ret (ty_comments o).

(** [Type.set_comments]. *)
Definition set_comments (t : tloc) (c : list string) : M unit :=
  fun s =>
    Ok tt (State (heap s)
                 (alter (fun o => TypeObj (ty_node o) c) t (types s))
                 (scopes s) (ref_type s) (resolve_log s)).

(** *** The resolver *)

Definition push_scope (scope : string) : M unit :=
  fun s =>
    Ok tt (State (heap s) (types s) (scope :: scopes s) (ref_type s)
                 (resolve_log s)).

Definition pop_scope : M unit :=
  fun s =>
    match scopes s with
    | [] => Raise RefResolutionError s
    | _ :: rest =>
        Ok tt (State (heap s) (types s) rest (ref_type s) (resolve_log s))
    end.

Definition ref_type_lookup (ref : string) : M (option tloc) :=
  fun s => Ok (ref_type s !! ref) s.

Definition ref_type_store (ref : string) (t : tloc) : M unit :=
  fun s =>
    Ok tt (State (heap s) (types s) (scopes s) (<[ref := t]> (ref_type s))
                 (resolve_log s)).

(** [resolver.resolve(ref)]: the URL the reference resolves to under the
    current scope, and the value found there. *)
Definition resolve (self : api) (ref : string) : M (string * json) :=
  fun s =>
    let s' := State (heap s) (types s) (scopes s) (ref_type s)
                    (ref :: resolve_log s) in
    match resolver_lookup self (scopes s) (heap s) ref with
    | Some found => Ok found s'
    | None => Raise RefResolutionError s'
    end.

(** [with resolver.resolving(ref) as resolved: body]: the resolver pushes the
    resolved URL as scope and pops it when the block is left. *)
Definition resolving {A} (self : api) (ref : string) (body : json -> M A)
    : M A :=
  do ' (url, resolved) <- resolve self ref;
  push_scope url ;;;
  try_finally (body resolved) pop_scope.

(** A field the source declares as [str]. *)
Definition as_str (value : json) : pyres string :=
  match value with
  | JStr text => Val text
  | _ => Exc OutsideDeclaredType
  end.

(** [schema.get("title", proposed_name)]. *)
Definition title_or (d : pydict json) (proposed_name : string) : pyres string :=
  match dict_get "title" d with
  | None => Val proposed_name
  | Some value => as_str value
  end.

(** [schema.get(key, {})]: the default is a new, empty dictionary. *)
Definition get_or_new (schema : loc) (key : string) : M json :=
  do d <- read schema;
  match dict_get key d with
  | Some value => ret value
  | None => do r <- new_dict []; ret (JDict r)
  end.

Definition nonempty (text : string) : bool := negb (String.eqb text "").

(** Lists and dictionaries cannot be members of a [set]. *)
Definition hashable (value : json) : bool :=
  match value with JList _ | JDict _ => false | _ => true end.

(** [set(schema.get(required, []))]. *)
Definition required_set (d : pydict json) : M (gset string) :=
  match dict_get "required" d with
  | None => ret ∅
  | Some (JList l) =>
      if forallb hashable l then ret (list_to_set (omap (fun v => match v with
                                            | JStr text => Some text
                                            | _ => None end) l))
      else raise TypeError
  | Some (JStr text) =>
      ret (list_to_set (map (fun c => String c EmptyString) (chars text)))
  | Some (JDict r) => do keys <- read r; ret (list_to_set (dict_keys keys))
  | Some _ => raise TypeError
  end.

(** [value == n] for an [int] [n]: a [bool] is the integer 0 or 1, a float
    is compared by value. *)
Definition eq_int (value : json) (n : Z) : bool :=
  match value with
  | JBool b => ((if b then 1 else 0) =? n)%Z
  | JInt z => (z =? n)%Z
  | JFloat f => float_eq_Z f n
  | _ => false
  end.

Definition is_None (value : json) : bool :=
  match value with JNull => true | _ => false end.

(** Truth value of [{low, high} - {None, n}]: some member of the first set
    is neither [None] nor equal to [n].  Building the set needs both values
    hashable. *)
Definition outside_arity (low high : json) (n : Z) : pyres bool :=
  if hashable low && hashable high then
    Val (existsb (fun value => negb (is_None value || eq_int value n))
                 [low; high])
  else Exc TypeError.

(** The comment [array] puts on a tuple whose arity is not pinned. *)
Definition tuple_warning : list string :=
  [ "WARNING: 'items': If list, must have minItems == maxItems.";
    "See: https://json-schema.org/understanding-json-schema/reference/array.html#tuple-validation" ].

(** What [getattr(self, schema_type, None)] can find on an engine: its
    methods and its three instance attributes.  Names that start with an
    underscore are refused before the lookup. *)
Inductive attribute :=
| a_const | a_enum | a_boolean | a_object | a_array | a_all_of | a_any_of
| a_ref | a_string | a_number | a_integer | a_null | a_default
| a_get_type | a_get_type_handler
| a_resolver | a_additional_properties | a_ref_type.

Definition getattr (schema_type : string) : option attribute :=
  dict_get schema_type
    [ ("const", a_const); ("enum", a_enum); ("boolean", a_boolean);
      ("object", a_object); ("array", a_array); ("all_of", a_all_of);
      ("any_of", a_any_of); ("ref", a_ref); ("string", a_string);
      ("number", a_number); ("integer", a_integer); ("null", a_null);
      ("default", a_default); ("get_type", a_get_type);
      ("get_type_handler", a_get_type_handler); ("resolver", a_resolver);
      ("additional_properties", a_additional_properties);
      ("ref_type", a_ref_type) ].

(** [API.get_type_handler]: the handler, or an exception. *)
Definition get_type_handler (schema_type : string) : pyres (option attribute) :=
  if startswith schema_type "_" then Exc AttributeError
  else
    let handler := getattr schema_type in
    match handler with
    | None => Exc NotImplementedError
    | Some _ => Val handler
    end.

(** ** The translation engine *)

Module APIv4.
Section Engine.
Variable unidecode : string -> string.
Variable float_str : spec_float -> string.
Variable self : api.

(** [self.get_type(schema, proposed_name, auto_alias)], the call through
    which every handler recurses. *)
Variable get_type : json -> string -> bool -> M tloc.

(** [CombinedType(NativeType(base), sub_types)]. *)
Definition combined (base : string) (sub_types : list tloc) : M tloc :=
  do b <- new_type (NativeType base "typing");
  new_type (CombinedType b sub_types).

(** [CombinedType(NativeType("Dict"), [BuiltinType("str"), value])]. *)
Definition dict_of (value : M tloc) : M tloc :=
  do b <- new_type (NativeType "Dict" "typing");
  do k <- new_type (BuiltinType "str");
  do v <- value;
  new_type (CombinedType b [k; v]).

Definition const (schema : loc) (proposed_name : string) : M tloc :=
  do d <- read schema;
  match dict_get "const" d with
  | Some const_ => new_type (LiteralType const_)
  | None => raise KeyError
  end.

Definition enum (schema : loc) (proposed_name : string) : M tloc :=
  do d <- read schema;
  do name <- lift (get_name unidecode (Some d) (Some proposed_name) false);
  match dict_get "enum" d with
  | None => raise KeyError
  | Some values =>
      do descriptions <- lift (get_description float_str d);
      match values with
      | JList [] => raise AssertionError
      | JList values => new_type (TypeEnum name values descriptions)
      | JStr _ | JDict _ => raise OutsideDeclaredType
      | _ => raise TypeError
      end
  end.

Definition boolean (schema : loc) (proposed_name : string) : M tloc :=
  new_type (BuiltinType "bool").

(** [add_required], local to [object]. *)
Definition add_required (type_ : tloc) (prop : string)
    (required : gset string) : M tloc :=
  (if decide (prop ∈ required) then
     do comments_ <- comments type_;
     let comments_ :=
       match comments_ with [] => [] | _ => comments_ ++ [""] end in
     set_comments type_ (comments_ ++ ["required"])
   else ret tt) ;;;
  ret type_.

(** The comprehension over [properties.items()].  The dictionary is read
    again at every step: a dictionary that changed size since the
    iteration began stops it with a [RuntimeError]. *)
Fixpoint struct_items (properties : loc) (size remaining : nat)
    (proposed_name : string) (required : gset string)
    (struct : pydict tloc) : M (pydict tloc) :=
  do items <- read properties;
  if negb (length items =? size)%nat then raise RuntimeError
  else
    match remaining with
    | O => ret struct
    | S remaining' =>
        match items !! (size - remaining)%nat with
        | None => ret struct
        | Some (prop, subschema) =>
            do type_ <- get_type subschema (proposed_name +:+ " " +:+ prop)
                                 false;
            do type_ <- add_required type_ prop required;
            struct_items properties size remaining' proposed_name required
                         (dict_set prop type_ struct)
        end
    end.

Definition object (schema : loc) (proposed_name : string) : M tloc :=
  do d <- read schema;
  do name <- lift (get_name unidecode (Some d) (Some proposed_name) false);
  do std_dict <-
    match get_or_None "additionalProperties" d with
    | JBool true =>
        match additional_properties self with
        | ALWAYS =>
            do t <- dict_of (new_type (NativeType "Any" "typing"));
            ret (Some t)
        | ONLY_EXPLICIT => ret None
        end
    | JDict r =>
        do sub_type <-
          get_type (JDict r) (proposed_name +:+ " additionalProperties")
                   true;
        do t <- dict_of (ret sub_type);
        ret (Some t)
    | _ => ret None
    end;
  do d <- read schema;
  let properties := get_or_None "properties" d in
  do proposed_name <- lift (title_or d proposed_name);
  do has_properties <- truthy properties;
  if has_properties then
    match properties with
    | JDict p =>
        do required <- required_set d;
        do items <- read p;
        do struct <- struct_items p (length items) (length items)
                                  proposed_name required [];
        do d <- read schema;
        do descriptions <-
          match std_dict with
          | None => lift (get_description float_str d)
          | Some _ => ret []
          end;
        do type_ <-
          new_type (TypedDictType
                      (match std_dict with
                       | None => name
                       | Some _ => name +:+ "Typed"
                       end) struct descriptions);
        let comments_ :=
          [ "WARNING: The required are not correctly taken in account,";
            "See: https://www.python.org/dev/peps/pep-0655/" ] in
        match std_dict with
        | Some std_dict =>
            do type_ <- combined "Union" [std_dict; type_];
            set_comments type_
              (comments_ ++
               [ "";
                 "WARNING: the Normally the types should be mised each other instead of Union.";
                 "See: https://github.com/python/mypy/issues/6131" ]) ;;;
            ret type_
        | None => set_comments type_ comments_ ;;; ret type_
        end
    | _ => raise AttributeError
    end
  else
    match std_dict with
    | Some std_dict => ret std_dict
    | None => dict_of (new_type (NativeType "Any" "typing"))
    end.

Definition array (schema : loc) (proposed_name : string) : M tloc :=
  do d <- read schema;
  match get_or_None "items" d with
  | JBool true =>
      do b <- new_type (NativeType "List" "typing");
      do a <- new_type (NativeType "Any" "typing");
      new_type (CombinedType b [a])
  | JBool false => raise NotImplementedError
  | JList items =>
      do inner_types <- for_each (fun item => get_type item "Base" true) items;
      do type_ <- combined "Tuple" inner_types;
      do d <- read schema;
      do mismatch <- lift (outside_arity (get_or_None "minItems" d)
                                         (get_or_None "maxItems" d)
                                         (Z.of_nat (length items)));
      if mismatch then
        set_comments type_ tuple_warning ;;;
        ret type_
      else ret type_
  | JNull =>
      do type_ <- new_type (BuiltinType "None");
      set_comments type_ ["WARNING: we get an array without any items"] ;;;
      ret type_
  | items =>
      do b <- new_type (NativeType "List" "typing");
      do item <- get_type items (proposed_name +:+ " item") true;
      new_type (CombinedType b [item])
  end.

(** The comprehension of [all_of] and [any_of] over
    [enumerate(subschema)]. *)
Fixpoint enumerate_types (prefix : string) (index : nat)
    (subschema : list json) : M (list tloc) :=
  match subschema with
  | [] => ret []
  | subs :: rest =>
      do type_ <- get_type subs (prefix +:+ str_of_Z (Z.of_nat index)) true;
      do types_ <- enumerate_types prefix (S index) rest;
      ret (type_ :: types_)
  end.

(** A field the source declares as a list of schemas. *)
Definition as_list (value : json) : pyres (list json) :=
  match value with
  | JList l => Val l
  | _ => Exc OutsideDeclaredType
  end.

Definition all_of (schema : loc) (subschema : json) (proposed_name : string)
    : M tloc :=
  do subschema <- lift (as_list subschema);
  do inner_types <-
    enumerate_types (proposed_name +:+ " allof") 0 subschema;
  do type_ <- combined "Union" inner_types;
  set_comments type_
    [ "WARNING: PEP 544 does not support an Intersection type,";
      "so `allOf` is interpreted as a `Union` for now.";
      "See: https://github.com/python/typing/issues/213" ] ;;;
  ret type_.

Definition any_of (schema : loc) (subschema : json) (proposed_name : string)
    : M tloc :=
  do subschema <- lift (as_list subschema);
  do inner_types <-
    enumerate_types (proposed_name +:+ " anyof") 0 subschema;
  combined "Union" inner_types.

Definition ref (schema : loc) (proposed_name : string) : M tloc :=
  do d <- read schema;
  match dict_get "$ref" d with
  | None => raise KeyError
  | Some ref_ =>
      do ref_ <- lift (as_str ref_);
      do schema <- new_dict (dict_del "$ref" d);
      if String.eqb ref_ "#" then
        (* Self ref. *)
        do empty <- new_dict [];
        do type_ <- object empty (proposed_name +:+ " object");
        set_comments type_
          [ "WARNING: Forward references may not be supported.";
            "See: https://github.com/python/mypy/issues/731" ] ;;;
        ret type_
      else
        do cached <- ref_type_lookup ref_;
        match cached with
        | Some type_ => ret type_
        | None =>
            do type_ <-
              (if resolver_has_resolve self then
                 do ' (scope, resolved) <- resolve self ref_;
                 push_scope scope ;;;
                 try_finally
                   (update_from schema resolved ;;;
                    get_type (JDict schema) proposed_name true)
                   pop_scope
               else
                 resolving self ref_ (fun resolved =>
                   update_from schema resolved ;;;
                   get_type (JDict schema) "Base" true));
            when (nonempty ref_) (ref_type_store ref_ type_) ;;;
            ret type_
        end
  end.

Definition number (schema : loc) (proposed_name : string) : M tloc :=
  do b <- new_type (NativeType "Union" "typing");
  do i <- new_type (BuiltinType "int");
  do f <- new_type (BuiltinType "float");
  new_type (CombinedType b [i; f]).

Definition integer (schema : loc) (proposed_name : string) : M tloc :=
  new_type (BuiltinType "int").

Definition null (schema : loc) (proposed_name : string) : M tloc :=
  new_type (BuiltinType "None").

Definition string (schema : loc) (proposed_name : String.string) : M tloc :=
  new_type (BuiltinType "str").

(** The loop of [default] over [(str, int, float, bool)]: the last class
    the value is an instance of wins, and a [bool] is an [int] too. *)
Definition default_type_name (value : json) : String.string :=
  match value with
  | JStr _ => "str"
  | JInt _ => "int"
  | JFloat _ => "float"
  | JBool _ => "bool"
  | _ => "Any"
  end.

Definition default (schema : loc) (proposed_name : String.string) : M tloc :=
  let comments_ :=
    [ "WARNING: `default` keyword not supported.";
      "See: https://github.com/python/mypy/issues/6131" ] in
  do d <- read schema;
  match dict_get "default" d with
  | None => raise KeyError
  | Some value =>
      do the_type <- new_type (BuiltinType (default_type_name value));
      set_comments the_type comments_ ;;;
      ret the_type
  end.

(** [handler(schema, proposed_name)] for what [getattr] found: a type
    handler, another method of the engine, or an attribute that cannot be
    called. *)
Definition call (handler : attribute) (schema : loc)
    (proposed_name : String.string) : M tloc :=
  match handler with
  | a_const => const schema proposed_name
  | a_enum => enum schema proposed_name
  | a_boolean => boolean schema proposed_name
  | a_object => object schema proposed_name
  | a_array => array schema proposed_name
  | a_ref => ref schema proposed_name
  | a_string => string schema proposed_name
  | a_number => number schema proposed_name
  | a_integer => integer schema proposed_name
  | a_null => null schema proposed_name
  | a_default => default schema proposed_name
  | a_get_type => get_type (JDict schema) proposed_name true
  | a_all_of | a_any_of | a_get_type_handler
  | a_resolver | a_additional_properties | a_ref_type => raise TypeError
  end.

Definition _get_type (schema : loc) (schema_type proposed_name : String.string)
    : M tloc :=
  do d <- read schema;
  do proposed_name <- lift (title_or d proposed_name);
  (* Enums get special treatment, as they should be one of the literal
     values. *)
  if dict_has "enum" d then
    do handler <- lift (get_type_handler "enum");
    match handler with
    | Some handler => call handler schema proposed_name
    | None => raise TypeError
    end
  else
    do handler <- lift (get_type_handler schema_type);
    match handler with
    | Some handler => call handler schema proposed_name
    | None =>
        do type_ <- new_type (BuiltinType "None");
        set_comments type_
          [ "WARNING: No handler for `" +:+ schema_type
              +:+ "`; please raise an issue";
            "at https://github.com/camptcamp/jsonschema-gentypes if you believe this to be in error" ] ;;;
        ret type_
    end.

(** [API._resolve_ref]: the schema object itself is updated with what its
    reference resolves to, and returned. *)
Definition _resolve_ref (schema : json) : M json :=
  match schema with
  | JDict r =>
      do d <- read r;
      match dict_get "$ref" d with
      | Some ref_ =>
          do ref_ <- lift (as_str ref_);
          resolving self ref_ (fun resolved => update_from r resolved) ;;;
          ret schema
      | None => ret schema
      end
  | JStr _ | JList _ => raise OutsideDeclaredType
  | _ => raise TypeError
  end.

(** [for key in keys: if key in d: del d[key]]. *)
Definition dict_del_all (keys : list String.string) (d : pydict json)
    : pydict json :=
  fold_left (fun acc key => dict_del key acc) keys d.

(** The [if "if" in schema] block of [_get_type_internal]. *)
Definition if_then_else (schema : loc) (proposed_name : String.string)
    : M tloc :=
  do d <- read schema;
  do base_schema <-
    new_dict (dict_del_all ["if"; "then"; "else"; "title"; "description"] d);
  do base <- read base_schema;
  do then_schema <- new_dict base;
  do then_ <- get_or_new schema "then";
  do then_ <- _resolve_ref then_;
  update_from then_schema then_ ;;;
  do t <- read then_schema;
  (if dict_has "properties" t then ret tt
   else
     do fresh <- new_dict [];
     do t <- read then_schema;
     write then_schema (dict_set "properties" (JDict fresh) t)) ;;;
  do t <- read then_schema;
  let then_propoerties := get_or_None "properties" t in
  do ok <- truthy then_propoerties;
  if negb ok then raise AssertionError
  else
    do if_ <- get_or_new schema "if";
    do if_ <- _resolve_ref if_;
    do if_properties <-
      match if_ with
      | JDict r => get_or_new r "properties"
      | _ => raise AttributeError
      end;
    do ok <- truthy if_properties;
    if negb ok then raise AssertionError
    else
      match then_propoerties with
      | JDict p => update_from p if_properties
      | _ => raise AttributeError
      end ;;;
      do base <- read base_schema;
      do else_schema <- new_dict base;
      do else_ <- get_or_new schema "else";
      do else_ <- _resolve_ref else_;
      update_from else_schema else_ ;;;
      do b <- new_type (NativeType "Union" "typing");
      do then_type <-
        get_type (JDict then_schema) (proposed_name +:+ " then") true;
      do else_type <-
        get_type (JDict else_schema) (proposed_name +:+ " else") true;
      new_type (CombinedType b [then_type; else_type]).

(** [schema.get("$id", "")]. *)
Definition scope_of (d : pydict json) : pyres String.string :=
  match dict_get "$id" d with
  | None | Some JNull => Val ""
  | Some value => as_str value
  end.

(** The loop of [_get_type_internal] over a [type] that is a list. *)
Definition type_list (schema_copy : loc) (proposed_name : String.string)
    (schema_type : list json) : M (list tloc) :=
  for_each (fun primitive_type =>
          do primitive_type <- lift (as_str primitive_type);
          _get_type schema_copy primitive_type
                    (proposed_name +:+ " " +:+ primitive_type))
       schema_type.

Definition _get_type_internal (schema : loc) (proposed_name : String.string)
    : M tloc :=
  do d <- read schema;
  do scope <- lift (scope_of d);
  when (nonempty scope) (push_scope scope) ;;;
  do proposed_name <- lift (title_or d proposed_name);
  if dict_has "if" d then if_then_else schema proposed_name
  else if dict_has "$ref" d then ref schema proposed_name
  else if dict_has "const" d then const schema proposed_name
  else
    let schema_type := get_or_None "type" d in
    let fall_through :=
      when (nonempty scope) pop_scope ;;;
      match schema_type with
      | JNull =>
          do type_ <- new_type (BuiltinType "None");
          set_comments type_ ["WARNING: we get an scheam without any type"] ;;;
          ret type_
      | JStr schema_type => _get_type schema schema_type proposed_name
      | _ => raise AssertionError
      end in
    match schema_type with
    | JList schema_type =>
        do schema_copy <- new_dict (dict_del "title" d);
        do inner_types <- type_list schema_copy proposed_name schema_type;
        combined "Union" inner_types
    | JNull =>
        match dict_get "allOf" d, dict_get "anyOf" d, dict_get "oneOf" d with
        | Some subschema, _, _ => all_of schema subschema proposed_name
        | None, Some subschema, _ => any_of schema subschema proposed_name
        | None, None, Some subschema => any_of schema subschema proposed_name
        | None, None, None =>
            if dict_has "enum" d then enum schema proposed_name
            else if dict_has "default" d then default schema proposed_name
            else fall_through
        end
    | _ => fall_through
    end.

(** The body of [API.get_type]. *)
Definition get_type_body (schema : json) (proposed_name : String.string)
    (auto_alias : bool) : M tloc :=
  match schema with
  | JBool true => new_type (NativeType "Any" "typing")
  | JBool false => new_type (BuiltinType "None")
  | JDict r =>
      do the_type <- _get_type_internal r proposed_name;
      do additional_description <- comments the_type;
      do d <- read r;
      do description <- lift (get_description float_str d);
      let description :=
        match description, additional_description with
        | _ :: _, _ :: _ => description ++ [""]
        | _, _ => description
        end in
      let description := description ++ additional_description in
      do o <- type_at the_type;
      if negb (is_NamedType (ty_node o))
         && match description with [] => false | _ => true end
      then
        if auto_alias then
          do name <-
            lift (get_name unidecode (Some d) (Some proposed_name) false);
          new_type (TypeAlias name the_type description)
        else set_comments the_type description ;;; ret the_type
      else ret the_type
  | _ => raise AttributeError
  end.
End Engine.

(** [API.get_type], run to a recursion depth of at most [depth] nested
    calls. *)
Fixpoint get_type (unidecode : String.string -> String.string)
    (float_str : spec_float -> String.string) (self : api) (depth : nat)
    (schema : json) (proposed_name : String.string) (auto_alias : bool)
    : M tloc :=
  match depth with
  | O => fun s => NoFuel s
  | S depth' =>
      get_type_body unidecode float_str self
        (get_type unidecode float_str self depth')
        schema proposed_name auto_alias
  end.
End APIv4.

(** ** A concrete engine

    What the examples below run: ASCII text, on which [unidecode] changes
    nothing, and a resolver over a single document whose references are
    JSON pointers ([#/definitions/a]). *)

Definition unidecode_ascii (text : string) : string := text.

(** No example holds a float: any printing function serves. *)
Definition float_str_none (f : spec_float) : string := "nan".

(** [text.split(sep)]. *)
Fixpoint split_on (sep : ascii) (text : string) : list string :=
  match text with
  | EmptyString => [""]
  | String c rest =>
      if Ascii.eqb c sep then "" :: split_on sep rest
      else
        match split_on sep rest with
        | [] => [String c EmptyString]
        | word :: words => String c word :: words
        end
  end.

(** The part of a URL before its fragment. *)
Definition defrag (url : string) : string :=
  match split_on "#" url with
  | base :: _ => base
  | [] => ""
  end.

(** Follow a JSON pointer through dictionaries. *)
Fixpoint walk (heap : list (pydict json)) (value : json) (path : list string)
    : option json :=
  match path with
  | [] => Some value
  | key :: path' =>
      match value with
      | JDict r =>
          d ← heap !! r; value' ← dict_get key d; walk heap value' path'
      | _ => None
      end
  end.

(** A resolver over the document stored at [root]: a reference [#/a/b] is
    looked up from the root, whatever the scope; the URL it resolves to is
    the reference joined to the scope on top of the stack. *)
Definition pointer_lookup (root : loc) (scopes : list string)
    (heap : list (pydict json)) (ref : string) : option (string * json) :=
  match split_on "#" ref with
  | [ ""; fragment ] =>
      match split_on "/" fragment with
      | "" :: path =>
          found ← walk heap (JDict root) path;
          Some (defrag (hd "" scopes) +:+ ref, found)
      | _ => None
      end
  | _ => None
  end.

Definition engine (root : loc) : api := Api (pointer_lookup root) true ONLY_EXPLICIT.

(** A freshly built engine over the dictionaries [documents]: no Type
    object yet, the base scope on the stack, an empty cache. *)
Definition fresh (documents : list (pydict json)) : state :=
  State documents [] [""] ∅ [].

(** [get_type] of the concrete engine on the dictionary at [root]. *)
Definition translate (depth : nat) (documents : list (pydict json))
    (root : loc) : result tloc :=
  APIv4.get_type unidecode_ascii float_str_none (engine root) depth
                 (JDict root) "Base" true (fresh documents).

(** The type behind an address, as a tree, with the comments of each
    object. *)
#[local] Unset Elimination Schemes.
Inductive type_tree :=
| Tree (n : node) (comments_ : list string) (children : list type_tree).
#[local] Set Elimination Schemes.

Definition children_of (n : node) : list tloc :=
  match n with
  | CombinedType base sub_types => base :: sub_types
  | TypeAlias _ sub_type _ => [sub_type]
  | TypedDictType _ struct _ => map snd struct
  | _ => []
  end.

Fixpoint tree_at (depth : nat) (types_ : list type_obj) (t : tloc)
    : option type_tree :=
  match depth with
  | O => None
  | S depth' =>
      o ← types_ !! t;
      children ← mapM (tree_at depth' types_) (children_of (ty_node o));
      Some (Tree (ty_node o) (ty_comments o) children)
  end.

(** ** Example documents *)

(** A record with two properties that refer to one definition:
    [{"type": "object", "title": "Point", "properties": {"x": {"$ref":
    "#/definitions/coord"}, "y": {"$ref": "#/definitions/coord"}},
    "required": ["x"], "definitions": {"coord": {"type": "number"}}}]. *)
Definition doc_point : list (pydict json) :=
  [ [ ("type", JStr "object"); ("title", JStr "Point");
      ("properties", JDict 1); ("required", JList [JStr "x"]);
      ("definitions", JDict 4) ];
    [ ("x", JDict 2); ("y", JDict 3) ];
    [ ("$ref", JStr "#/definitions/coord") ];
    [ ("$ref", JStr "#/definitions/coord") ];
    [ ("coord", JDict 5) ];
    [ ("type", JStr "number") ] ].

(** [{"$id": "http://example.com/root.json", "const": 1}]. *)
Definition doc_scoped_const : list (pydict json) :=
  [ [ ("$id", JStr "http://example.com/root.json"); ("const", JInt 1) ] ].

(** [{"$id": "http://example.com/root.json", "type": "string"}]. *)
Definition doc_scoped_string : list (pydict json) :=
  [ [ ("$id", JStr "http://example.com/root.json"); ("type", JStr "string") ] ].

(** A conditional whose [then] branch is a reference:
    [{"type": "object", "if": {"properties": {"kind": {"type": "string"}}},
    "then": {"$ref": "#/definitions/sized"}, "definitions": {"sized":
    {"properties": {"size": {"type": "integer"}}}}}]. *)
Definition doc_conditional : list (pydict json) :=
  [ [ ("type", JStr "object"); ("if", JDict 1); ("then", JDict 3);
      ("definitions", JDict 4) ];
    [ ("properties", JDict 2) ];
    [ ("kind", JDict 7) ];
    [ ("$ref", JStr "#/definitions/sized") ];
    [ ("sized", JDict 5) ];
    [ ("properties", JDict 6) ];
    [ ("size", JDict 8) ];
    [ ("type", JStr "string") ];
    [ ("type", JStr "integer") ] ].

(** A definition that refers to itself, as a linked list does:
    [{"$ref": "#/definitions/node", "definitions": {"node": {"type":
    "object", "properties": {"next": {"$ref": "#/definitions/node"}}}}}]. *)
Definition doc_cycle : list (pydict json) :=
  [ [ ("$ref", JStr "#/definitions/node"); ("definitions", JDict 1) ];
    [ ("node", JDict 2) ];
    [ ("type", JStr "object"); ("properties", JDict 3) ];
    [ ("next", JDict 4) ];
    [ ("$ref", JStr "#/definitions/node") ] ].

(** [{"type": "array", "items": [{"type": "string"}, {"type": "integer"},
    {"type": "boolean"}]}], without [minItems] and [maxItems]. *)
Definition doc_tuple3 : list (pydict json) :=
  [ [ ("type", JStr "array"); ("items", JList [JDict 1; JDict 2; JDict 3]) ];
    [ ("type", JStr "string") ];
    [ ("type", JStr "integer") ];
    [ ("type", JStr "boolean") ] ].

(** The same, with the arity pinned: [minItems] and [maxItems] are 3. *)
Definition doc_tuple3_pinned : list (pydict json) :=
  [ [ ("type", JStr "array"); ("items", JList [JDict 1; JDict 2; JDict 3]);
      ("minItems", JInt 3); ("maxItems", JInt 3) ];
    [ ("type", JStr "string") ];
    [ ("type", JStr "integer") ];
    [ ("type", JStr "boolean") ] ].

(** [{"type": ["string", "integer"]}]. *)
Definition doc_type_list : list (pydict json) :=
  [ [ ("type", JList [JStr "string"; JStr "integer"]) ] ].

(** [{"type": "integer", "enum": ["low", "high"]}]: the values are not
    integers. *)
Definition doc_enum_typed : list (pydict json) :=
  [ [ ("type", JStr "integer"); ("enum", JList [JStr "low"; JStr "high"]) ] ].

(** [{"type": "array", "items": false}]. *)
Definition doc_items_false : list (pydict json) :=
  [ [ ("type", JStr "array"); ("items", JBool false) ] ].

(** [{"type": "array"}]: an array of which nothing else is known. *)
Definition doc_no_items : list (pydict json) :=
  [ [ ("type", JStr "array") ] ].

(** [{"type": "decimal"}]: no handler has this name. *)
Definition doc_unknown_type : list (pydict json) :=
  [ [ ("type", JStr "decimal") ] ].

(** [{"type": "string", "title": ""}]: a supported type under an empty
    title. *)
Definition doc_empty_title : list (pydict json) :=
  [ [ ("type", JStr "string"); ("title", JStr "") ] ].

(** [{"enum": []}]: an enumeration without values. *)
Definition doc_enum_empty : list (pydict json) :=
  [ [ ("enum", JList []) ] ].

(** A definition used by a property and, after it, by the [then] branch of
    a conditional:
    [{"type": "object", "title": "Base", "properties": {"a": {"$ref":
    "#/definitions/sized"}, "b": {"if": {"properties": {"kind": {"type":
    "string"}}}, "then": {"$ref": "#/definitions/sized"}}}, "definitions":
    {"sized": {"type": "object", "title": "Sized", "properties": {"size":
    {"type": "integer"}}}}}]. *)
Definition doc_twice : list (pydict json) :=
  [ [ ("type", JStr "object"); ("title", JStr "Base");
      ("properties", JDict 1); ("definitions", JDict 2) ];
    [ ("a", JDict 3); ("b", JDict 4) ];
    [ ("sized", JDict 5) ];
    [ ("$ref", JStr "#/definitions/sized") ];
    [ ("if", JDict 6); ("then", JDict 7) ];
    [ ("type", JStr "object"); ("title", JStr "Sized");
      ("properties", JDict 8) ];
    [ ("properties", JDict 9) ];
    [ ("$ref", JStr "#/definitions/sized") ];
    [ ("size", JDict 10) ];
    [ ("kind", JDict 11) ];
    [ ("type", JStr "integer") ];
    [ ("type", JStr "string") ] ].

(** ** The loop over a list of types, as a relation *)

(** [translated_each one types s results s']: [one] translates the elements
    of [types] one after the other, each from the state its predecessor
    left, and returns [results], in the same order. *)
Inductive translated_each (one : string -> M tloc)
    : list string -> state -> list tloc -> state -> Prop :=
| translated_nil s : translated_each one [] s [] s
| translated_cons primitive_type rest s type_ s1 types_ s2 :
    one primitive_type s = Ok type_ s1 ->
    translated_each one rest s1 types_ s2 ->
    translated_each one (primitive_type :: rest) s (type_ :: types_) s2.

(** ** Outcomes and recursion depth *)

(** An outcome is settled when the run did not stop for lack of depth. *)
Definition settled {A} (r : result A) : Prop :=
  match r with NoFuel _ => False | _ => True end.

(** [m'] agrees with [m] wherever [m] settles. *)
Definition refines {A} (m m' : M A) : Prop :=
  forall s, settled (m s) -> m' s = m s.

(** ** Well-formed Type stores *)

(** Every Type object refers to objects built before it, and the cache
    refers to objects of the store. *)
Definition wf (s : state) : Prop :=
  (forall t o, types s !! t = Some o ->
               Forall (fun c => c < t) (children_of (ty_node o)))
  /\ (forall ref t, ref_type s !! ref = Some t -> t < length (types s)).

(** [s'] has the Type objects of [s], each with the node it had, and maybe
    more: between the two, objects were added and comments were set. *)
Definition extends (s s' : state) : Prop :=
  forall t o, types s !! t = Some o ->
              exists o', types s' !! t = Some o' /\ ty_node o' = ty_node o.

(** [good known m locs]: run from a well-formed state in which the
    locations [known] are objects of the store, [m] ends in a well-formed
    state that extends it, and the locations [locs a] of a value [a] it
    returns are objects of that store. *)
Definition good {A} (known : list tloc) (m : M A) (locs : A -> list tloc)
    : Prop :=
  forall s, wf s -> Forall (fun t => t < length (types s)) known ->
    match m s with
    | Ok a s' =>
        wf s' /\ extends s s'
        /\ Forall (fun t => t < length (types s')) (locs a)
    | Raise _ s' | NoFuel s' => wf s' /\ extends s s'
    end.

(** A computation that leaves the Type store and the cache alone. *)
Definition leaves_types {A} (m : M A) : Prop :=
  forall s,
    match m s with
    | Ok _ s' | Raise _ s' | NoFuel s' =>
        types s' = types s /\ ref_type s' = ref_type s
    end.

(** ** Rendering Type objects *)

Section Rendering.
Variable unidecode : string -> string.
Variable float_str : spec_float -> string.

(** [Type.name()] of the object at [t], through at most [depth] nested
    combined types; [None] when that depth does not suffice or [t] is no
    object of the store.  A [const] that is a list or a dictionary is
    outside the values a [LiteralType] is declared for. *)
Fixpoint name (depth : nat) (types_ : list type_obj) (t : tloc)
    : option (pyres string) :=
  match depth with
  | O => None
  | S depth' =>
      o ← types_ !! t;
      match ty_node o with
      | LiteralType (JStr const) =>
          Some (Val ("Literal[" +:+ dquote +:+ const +:+ dquote +:+ "]"))
      | LiteralType const =>
          Some (match py_str float_str const with
                | Some text => Val ("Literal[" +:+ text +:+ "]")
                | None => Exc OutsideDeclaredType
                end)
      | BuiltinType name_ => Some (Val name_)
      | NativeType name_ _ => Some (Val name_)
      | CombinedType base sub_types =>
          base_name_ ← name depth' types_ base;
          sub_names ← mapM (name depth' types_) sub_types;
          Some (base_name_ ← base_name_;
                sub_names ← pyres_mapM (fun sub_name => sub_name) sub_names;
                Val (base_name_ +:+ "[" +:+ String.concat ", " sub_names
                       +:+ "]"))
      | TypeAlias name_ _ _ | TypeEnum name_ _ _ | TypedDictType name_ _ _ =>
          Some (Val (dquote +:+ name_ +:+ dquote))
      end
  end.

(** [Type.imports()]. *)
Definition imports (n : node) : list (string * string) :=
  match n with
  | LiteralType _ => [("typing", "Literal")]
  | NativeType name_ package => [(package, name_)]
  | TypeEnum _ _ _ => [("enum", "Enum")]
  | _ => []
  end.

(** [Type.depends_on()]; a typed dictionary builds a new [NativeType] at
    each call. *)
Definition depends_on (t : tloc) : M (list tloc) :=
  do o <- type_at t;
  match ty_node o with
  | CombinedType base sub_types => ret (base :: sub_types)
  | TypeAlias _ sub_type _ => ret [sub_type]
  | TypedDictType _ struct _ =>
      do typed_dict <- new_type (NativeType "TypedDict" "typing");
      ret (typed_dict :: map snd struct)
  | _ => ret []
  end.

(** The loop of [TypedDictType.definition] over [struct.items()]. *)
Fixpoint struct_lines (depth : nat) (types_ : list type_obj)
    (struct : pydict tloc) : option (pyres (list string)) :=
  match struct with
  | [] => Some (Val [])
  | (property_, type_obj_) :: struct' =>
      o ← types_ !! type_obj_;
      type_name ← name depth types_ type_obj_;
      rest ← struct_lines depth types_ struct';
      Some (type_name ← type_name;
            rest ← rest;
            Val (map (fun comment => "    # " +:+ comment) (ty_comments o)
                 ++ ["    '" +:+ property_ +:+ "': " +:+ type_name +:+ ","]
                 ++ rest))
  end.

(** [Type.definition()]. *)
Definition definition (depth : nat) (types_ : list type_obj) (t : tloc)
    : option (pyres (list string)) :=
  o ← types_ !! t;
  match ty_node o with
  | TypeAlias name_ sub_type descriptions =>
      sub_name ← name depth types_ sub_type;
      Some (sub_name ← sub_name;
            Val ([""; ""] ++ map (fun d => "# " +:+ d) descriptions
                 ++ [name_ +:+ " = " +:+ sub_name]))
  | TypeEnum name_ values descriptions =>
      Some (TypeEnum_definition unidecode float_str name_ values descriptions)
  | TypedDictType name_ struct descriptions =>
      lines ← struct_lines depth types_ struct;
      Some (lines ← lines;
            Val ([""; ""] ++ map (fun d => "# " +:+ d) descriptions
                 ++ [name_ +:+ " = TypedDict('" +:+ name_ +:+ "', " +:+ "{"]
                 ++ lines ++ ["}, total=False)"]))
  | _ => Some (Val [])
  end.
End Rendering.

(** ** Invariants of the documents and of the scope stack *)

(** [keeps Inv Cut m Q]: run from a state in which [Inv] holds, [m] returns or
    raises in a state in which [Inv] holds, a value it returns satisfies [Q],
    and [Cut] holds where it is cut off. *)
Definition keeps {A} (Inv Cut : state -> Prop) (m : M A) (Q : A -> Prop)
    : Prop :=
  forall s, Inv s ->
    match m s with
    | Ok a s' => Inv s' /\ Q a
    | Raise _ s' => Inv s'
    | NoFuel s' => Cut s'
    end.

(** A computation that leaves the dictionaries and the scope stack alone. *)
Definition leaves_documents {A} (m : M A) : Prop :=
  forall s,
    match m s with
    | Ok _ s' | Raise _ s' | NoFuel s' =>
        heap s' = heap s /\ scopes s' = scopes s
    end.

(** No dictionary has the key [key], and the first [n] dictionaries are
    [documents]. *)
Definition untouched (key : string) (n : nat) (documents : list (pydict json))
    (s : state) : Prop :=
  take n (heap s) = documents /\ n <= length (heap s)
  /\ Forall (fun d => dict_has key d = false) (heap s).

(** No dictionary has the key [key], and the scope stack is [stack]. *)
Definition scoped (key : string) (stack : list string) (s : state) : Prop :=
  scopes s = stack /\ Forall (fun d => dict_has key d = false) (heap s).

(** * Properties *)

(** ** Recursion depth *)

Lemma refines_refl {A} (m : M A) : refines m m.
Proof. now intros s _. Qed.

Lemma refines_bind {A B} (m m' : M A) (f f' : A -> M B) :
  refines m m' -> (forall a, refines (f a) (f' a)) ->
  refines (bind m f) (bind m' f').
Proof.
  intros Hm Hf s. unfold bind. specialize (Hm s).
  destruct (m s) as [a s1|e s1|s1] eqn:E; simpl.
  - intros Hs. rewrite Hm by exact I. now apply Hf.
  - intros _. now rewrite Hm.
  - intros [].
Qed.

Lemma refines_try_finally {A} (body body' : M A) (final final' : M unit) :
  refines body body' -> refines final final' ->
  refines (try_finally body final) (try_finally body' final').
Proof.
  intros Hb Hf s. unfold try_finally. specialize (Hb s).
  destruct (body s) as [a s1|e s1|s1] eqn:E; simpl.
  - rewrite Hb by exact I. specialize (Hf s1).
    destruct (final s1) eqn:E1; simpl; intros Hs;
      try (rewrite Hf by exact I; reflexivity); destruct Hs.
  - rewrite Hb by exact I. specialize (Hf s1).
    destruct (final s1) eqn:E1; simpl; intros Hs;
      try (rewrite Hf by exact I; reflexivity); destruct Hs.
  - intros [].
Qed.

Lemma refines_for_each {A B} (f f' : A -> M B) (l : list A) :
  (forall a, refines (f a) (f' a)) ->
  refines (for_each f l) (for_each f' l).
Proof.
  intros Hf. induction l as [|a l IH]; simpl.
  - apply refines_refl.
  - apply refines_bind; [apply Hf|]. intros b.
    apply refines_bind; [apply IH|]. intros bs. apply refines_refl.
Qed.

Ltac mono_step :=
  first
    [ apply refines_refl
    | assumption
    | match goal with
      | H : context [refines] |- refines _ _ => solve [apply H]
      end
    | apply refines_bind; [ | intros ? ]
    | apply refines_try_finally
    | apply refines_for_each; intros ?
    | match goal with
      | |- refines (match ?x with _ => _ end) _ => destruct x
      | |- refines (if ?x then _ else _) _ => destruct x
      | |- refines (let '(_, _) := ?x in _) _ => destruct x
      end ].
Ltac mono := repeat mono_step.

Section Monotone.
Variable unidecode : string -> string.
Variable float_str : spec_float -> string.
Variable self : api.
Variables rec rec' : json -> string -> bool -> M tloc.
Hypothesis Hrec : forall x n b, refines (rec x n b) (rec' x n b).

Lemma struct_items_mono p size remaining name required struct :
  refines (APIv4.struct_items rec p size remaining name required struct)
          (APIv4.struct_items rec' p size remaining name required struct).
Proof.
  revert struct. induction remaining as [|k IH]; intros struct; simpl; mono.
Qed.

Lemma object_mono schema name :
  refines (APIv4.object unidecode float_str self rec schema name)
          (APIv4.object unidecode float_str self rec' schema name).
Proof.
  pose proof struct_items_mono.
  unfold APIv4.object, APIv4.dict_of. mono.
Qed.

Lemma array_mono schema name :
  refines (APIv4.array rec schema name) (APIv4.array rec' schema name).
Proof. unfold APIv4.array. mono. Qed.

Lemma enumerate_types_mono prefix index subschema :
  refines (APIv4.enumerate_types rec prefix index subschema)
          (APIv4.enumerate_types rec' prefix index subschema).
Proof.
  revert index. induction subschema as [|x l IH]; intros index; simpl; mono.
Qed.

Lemma all_of_mono schema subschema name :
  refines (APIv4.all_of rec schema subschema name)
          (APIv4.all_of rec' schema subschema name).
Proof.
  pose proof enumerate_types_mono. unfold APIv4.all_of. mono.
Qed.

Lemma any_of_mono schema subschema name :
  refines (APIv4.any_of rec schema subschema name)
          (APIv4.any_of rec' schema subschema name).
Proof.
  pose proof enumerate_types_mono. unfold APIv4.any_of. mono.
Qed.

Lemma ref_mono schema name :
  refines (APIv4.ref unidecode float_str self rec schema name)
          (APIv4.ref unidecode float_str self rec' schema name).
Proof.
  pose proof object_mono. unfold APIv4.ref, resolving. mono.
Qed.

Lemma call_mono handler schema name :
  refines (APIv4.call unidecode float_str self rec handler schema name)
          (APIv4.call unidecode float_str self rec' handler schema name).
Proof.
  pose proof object_mono. pose proof array_mono. pose proof ref_mono.
  unfold APIv4.call. mono.
Qed.

Lemma _get_type_mono schema schema_type name :
  refines (APIv4._get_type unidecode float_str self rec schema schema_type name)
          (APIv4._get_type unidecode float_str self rec' schema schema_type name).
Proof.
  pose proof call_mono. unfold APIv4._get_type. mono.
Qed.

Lemma if_then_else_mono schema name :
  refines (APIv4.if_then_else self rec schema name)
          (APIv4.if_then_else self rec' schema name).
Proof. unfold APIv4.if_then_else. mono. Qed.

Lemma _get_type_internal_mono schema name :
  refines (APIv4._get_type_internal unidecode float_str self rec schema name)
          (APIv4._get_type_internal unidecode float_str self rec' schema name).
Proof.
  pose proof _get_type_mono. pose proof if_then_else_mono.
  pose proof ref_mono. pose proof all_of_mono. pose proof any_of_mono.
  unfold APIv4._get_type_internal, APIv4.type_list. mono.
Qed.

Lemma get_type_body_mono schema name auto_alias :
  refines (APIv4.get_type_body unidecode float_str self rec schema name auto_alias)
          (APIv4.get_type_body unidecode float_str self rec' schema name auto_alias).
Proof.
  pose proof _get_type_internal_mono. unfold APIv4.get_type_body. mono.
Qed.
End Monotone.

Lemma get_type_mono unidecode float_str self depth depth' schema name auto_alias :
  depth <= depth' ->
  refines (APIv4.get_type unidecode float_str self depth schema name auto_alias)
          (APIv4.get_type unidecode float_str self depth' schema name auto_alias).
Proof.
  revert depth' schema name auto_alias.
  induction depth as [|n IH]; intros depth' schema name auto_alias Hle.
  - intros s [].
  - destruct depth' as [|m]; [lia|]. simpl.
    apply get_type_body_mono. intros x k b. apply IH. lia.
Qed.

Lemma chars_join l : chars (join l) = l.
Proof. apply list_ascii_of_string_of_list_ascii. Qed.

Lemma chars_nil text : chars text = [] <-> text = "".
Proof. destruct text; simpl; split; congruence. Qed.

(** ** Two translations of one document

    A translation that settles gives the same outcome whatever depth it is
    allowed, once that depth suffices. *)
Lemma settled_translation_any_depth unidecode float_str self documents schema
    name auto_alias depth1 depth2 r1 r2 :
  APIv4.get_type unidecode float_str self depth1 schema name auto_alias
                 (fresh documents) = r1 ->
  APIv4.get_type unidecode float_str self depth2 schema name auto_alias
                 (fresh documents) = r2 ->
  settled r1 -> settled r2 -> r1 = r2.
Proof.
  intros H1 H2 S1 S2. subst r1 r2.
  destruct (Nat.le_ge_cases depth1 depth2) as [Hle|Hle].
  - symmetry. now apply (get_type_mono _ _ _ _ _ _ _ _ Hle).
  - now apply (get_type_mono _ _ _ _ _ _ _ _ Hle).
Qed.

(** C6 does not hold of the code: a second engine, freshly built (no Type
    object, the base scope, an empty cache) over the dictionaries of
    [doc_twice] as the first translation left them, returns another IR than
    the first one did.  In the first run the typed dictionary [Sized] of
    property [a] has the one field [size]; the conditional of property [b],
    translated after it, adds [kind] to the properties of the definition in
    the document, and in the second run [Sized] has the fields [size] and
    [kind].  On [doc_point], which has no conditional, the second run builds
    the same Type objects as the first. *)
Theorem second_translation_differs :
  let again documents :=
    APIv4.get_type unidecode_ascii float_str_none (engine 0) 8 (JDict 0)
                   "Base" true (fresh documents) in
  let warning :=
    [ "WARNING: The required are not correctly taken in account,";
      "See: https://www.python.org/dev/peps/pep-0655/" ] in
  (exists type1 s1 type2 s2 tree1 tree2,
     translate 8 doc_twice 0 = Ok type1 s1
     /\ again (heap s1) = Ok type2 s2
     /\ types s1 !! type1
        = Some (TypeObj (TypedDictType "Base" [("a", 1); ("b", 5)] ["Base"])
                  warning)
     /\ types s1 !! (1 : tloc)
        = Some (TypeObj (TypedDictType "Sized" [("size", 0)] ["Sized"])
                  warning)
     /\ types s2 !! type2
        = Some (TypeObj (TypedDictType "Base" [("a", 2); ("b", 6)] ["Base"])
                  warning)
     /\ types s2 !! (2 : tloc)
        = Some (TypeObj
                  (TypedDictType "Sized" [("size", 0); ("kind", 1)] ["Sized"])
                  warning)
     /\ tree_at 8 (types s1) type1 = Some tree1
     /\ tree_at 8 (types s2) type2 = Some tree2
     /\ tree1 <> tree2)
  /\ (exists type1 s1 type2 s2,
        translate 8 doc_point 0 = Ok type1 s1
        /\ again (heap s1) = Ok type2 s2
        /\ type1 = type2
        /\ types s1 = types s2).
Proof.
  split.
  - do 6 eexists. split; [vm_compute; reflexivity|].
    split; [vm_compute; reflexivity|].
    do 4 (split; [reflexivity|]).
    split; [vm_compute; reflexivity|]. split; [vm_compute; reflexivity|].
    discriminate.
  - do 4 eexists. split; [vm_compute; reflexivity|].
    split; [vm_compute; reflexivity|]. split; reflexivity.
Qed.

(** ** Name synthesis is partial

    C10, as amended: [get_name] fails with an index error exactly when the
    transliterated base name (the title, or the proposed name when there is
    no title) is the empty string; whenever it is not empty an identifier
    is returned; and it fails with an assertion error when the schema has
    no title and no proposed name is supplied. *)
Theorem get_name_partial unidecode schema proposed_name upper :
  (forall name, base_name schema proposed_name = Val name ->
     (get_name unidecode schema proposed_name upper = Exc IndexError
      <-> unidecode name = "")
     /\ (unidecode name <> "" ->
         exists identifier,
           get_name unidecode schema proposed_name upper = Val identifier))
  /\ (schema ≫= dict_get "title" = None ->
      get_name unidecode schema None upper = Exc AssertionError).
Proof.
  split.
  - intros name Hname. unfold get_name. rewrite Hname.
    unfold mbind, pyres_bind. rewrite chars_join.
    destruct (chars (unidecode name)) as [|c l] eqn:E; cbn [map].
    + apply chars_nil in E. split; [tauto|]. intros H. now destruct H.
    + assert (unidecode name <> "") as Hne
        by (intros H; apply chars_nil in H; congruence).
      destruct upper; cbv beta iota; (split; [split; [discriminate|tauto]|]);
        intros _; eexists; reflexivity.
  - intros Hnone. unfold get_name, base_name. rewrite Hnone. reflexivity.
Qed.

Lemma get_name_partial_witness :
  get_name unidecode_ascii (Some [("title", JStr "")]) None false
    = Exc IndexError
  /\ get_name unidecode_ascii (Some []) None false = Exc AssertionError.
Proof.
  split.
  - apply (proj1 (get_name_partial unidecode_ascii (Some [("title", JStr "")])
                    None false) "" eq_refl). reflexivity.
  - apply (proj2 (get_name_partial unidecode_ascii (Some []) None false)).
    reflexivity.
Defined.

(** A title made only of punctuation is not an error: its characters
    become spaces, and the identifier has no letter. *)
Lemma punctuation_title_is_no_error :
  get_name unidecode_ascii (Some [("title", JStr "!!!")]) None false = Val ""
  /\ get_name unidecode_ascii (Some []) (Some "!!!") false = Val "_".
Proof. split; reflexivity. Qed.

Lemma pyres_mapM_Forall2 {A B} (f : A -> pyres B) (l : list A) (bs : list B) :
  pyres_mapM f l = Val bs <-> Forall2 (fun a b => f a = Val b) l bs.
Proof.
  revert bs. induction l as [|a l IH]; intros bs; cbn [pyres_mapM].
  - split.
    + intros H. injection H as <-. constructor.
    + intros H. inversion H. reflexivity.
  - unfold mbind, pyres_bind. destruct (f a) as [b|e] eqn:Ea.
    + destruct (pyres_mapM f l) as [bs'|e] eqn:El.
      * split.
        -- intros H. injection H as <-. constructor; [exact Ea|].
           now apply IH.
        -- intros H. inversion H as [|? b' ? bs'' Hb Hbs]; subst.
           apply IH in Hbs. congruence.
      * split; [discriminate|].
        intros H. inversion H as [|? b' ? bs'' Hb Hbs]; subst.
        apply IH in Hbs. discriminate.
    + split; [discriminate|].
      intros H. inversion H; subst. congruence.
Qed.

(** ** Enumeration declarations

    C5, as amended: the declaration of an enumeration is returned exactly
    when the member line of every value can be built, and then it is two
    blank lines, one comment line per description, the class line and one
    member line per value, in the order of the values: as many member lines
    as values. *)
Theorem TypeEnum_definition_members unidecode float_str name values
    descriptions lines :
  TypeEnum_definition unidecode float_str name values descriptions = Val lines
  <-> exists members,
        Forall2 (fun value member =>
                   enum_member unidecode float_str value = Val member)
                values members
        /\ length members = length values
        /\ lines = [""; ""] ++ map (fun d => "# " +:+ d) descriptions
                   ++ ["class " +:+ name +:+ "(Enum):"] ++ members.
Proof.
  unfold TypeEnum_definition, mbind, pyres_bind.
  destruct (pyres_mapM (enum_member unidecode float_str) values)
    as [members|e] eqn:E.
  - apply pyres_mapM_Forall2 in E. split.
    + intros H. injection H as <-. exists members.
      split; [exact E|]. split; [symmetry; eapply Forall2_length; exact E|].
      now rewrite <- !app_assoc.
    + intros (members' & HF & _ & ->).
      apply pyres_mapM_Forall2 in E, HF.
      assert (members' = members) as -> by congruence.
      now rewrite <- !app_assoc.
  - split; [discriminate|].
    intros (members' & HF & _ & _). apply pyres_mapM_Forall2 in HF. congruence.
Qed.

Lemma TypeEnum_definition_members_witness :
  TypeEnum_definition unidecode_ascii float_str_none "Colour"
    [JStr "red"; JInt 2; JNull] ["Colour"]
  = Val [ ""; ""; "# Colour"; "class Colour(Enum):";
          "    RED = " +:+ dquote +:+ "red" +:+ dquote;
          "    NUM_2 = 2"; "    NONE_NAME = None" ].
Proof.
  apply (proj2 (TypeEnum_definition_members unidecode_ascii float_str_none
                  "Colour" [JStr "red"; JInt 2; JNull] ["Colour"] _)).
  exists [ "    RED = " +:+ dquote +:+ "red" +:+ dquote;
           "    NUM_2 = 2"; "    NONE_NAME = None" ].
  split; [|split; reflexivity].
  repeat constructor.
Defined.

(** Two distinct values can get the same member identifier. *)
Lemma distinct_values_share_identifier :
  JStr "a b" <> JStr "a-b"
  /\ get_name unidecode_ascii (Some [("title", JStr "a b")]) None true
     = Val "A_B"
  /\ get_name unidecode_ascii (Some [("title", JStr "a-b")]) None true
     = Val "A_B"
  /\ TypeEnum_definition unidecode_ascii float_str_none "E"
       [JStr "a b"; JStr "a-b"] []
     = Val [ ""; ""; "class E(Enum):";
             "    A_B = " +:+ dquote +:+ "a b" +:+ dquote;
             "    A_B = " +:+ dquote +:+ "a-b" +:+ dquote ].
Proof. split; [discriminate|]. repeat split; vm_compute; reflexivity. Qed.

(** ** Tuples

    [array] on a list of item schemas. *)

Lemma for_each_length {A B} (f : A -> M B) (l : list A) s bs s' :
  for_each f l s = Ok bs s' -> length bs = length l.
Proof.
  revert s bs s'. induction l as [|a l IH]; intros s bs s'; cbn [for_each].
  - unfold ret. intros [= <- _]. reflexivity.
  - unfold bind. destruct (f a s) as [b s1|e s1|s1]; try discriminate.
    destruct (for_each f l s1) as [bs1 s2|e s2|s2] eqn:E; try discriminate.
    unfold ret. intros [= <- _]. cbn [length]. f_equal. eapply IH, E.
Qed.

Lemma outside_arity_false low high n :
  outside_arity low high n = Val false <->
  hashable low && hashable high = true /\
  (is_None low || eq_int low n) && (is_None high || eq_int high n) = true.
Proof.
  unfold outside_arity. destruct (hashable low && hashable high).
  - cbn [existsb]. rewrite orb_false_r.
    destruct (is_None low || eq_int low n), (is_None high || eq_int high n);
      cbn; split; try (intros [_ ?]); try intros [= ?]; try discriminate; auto.
  - split; [discriminate|]. intros [? _]. discriminate.
Qed.

(** C4, as amended: for an [array] schema whose [items] is a list of n
    subschemas that all translate, [array] returns an n-ary tuple of their
    types, in order, and attaches the warning comment exactly when
    [minItems] or [maxItems] is present and differs from n: with both
    absent, as with both equal to n, no comment is attached. *)
Theorem array_tuple_warning rec schema proposed_name items s inner_types s1
    mismatch :
  get_or_None "items" (heap s !!! schema) = JList items ->
  for_each (fun item => rec item "Base" true) items s = Ok inner_types s1 ->
  outside_arity (get_or_None "minItems" (heap s1 !!! schema))
                (get_or_None "maxItems" (heap s1 !!! schema))
                (Z.of_nat (length items)) = Val mismatch ->
  length inner_types = length items
  /\ APIv4.array rec schema proposed_name s
     = Ok (S (length (types s1)))
          (State (heap s1)
                 (types s1
                  ++ [ TypeObj (NativeType "Tuple" "typing") [];
                       TypeObj (CombinedType (length (types s1)) inner_types)
                               (if mismatch then tuple_warning else []) ])
                 (scopes s1) (ref_type s1) (resolve_log s1))
  /\ (mismatch = false <->
      forallb (fun bound =>
                 is_None bound || eq_int bound (Z.of_nat (length items)))
              [ get_or_None "minItems" (heap s1 !!! schema);
                get_or_None "maxItems" (heap s1 !!! schema) ] = true).
Proof.
  intros Hitems Heach Harity.
  split; [eapply for_each_length, Heach|]. split.
  - unfold APIv4.array, bind, read at 1. rewrite Hitems, Heach.
    unfold APIv4.combined, bind, new_type, read.
    cbn [heap types scopes ref_type resolve_log].
    rewrite Harity. unfold lift, ret.
    rewrite length_app. cbn [length]. rewrite Nat.add_comm. cbn [Nat.add].
    destruct mismatch.
    + unfold set_comments. cbn [heap types scopes ref_type resolve_log].
      f_equal. f_equal. rewrite <- app_assoc. cbn [app].
      replace (S (length (types s1))) with (length (types s1) + 1) by lia.
      rewrite (alter_app_r _ (types s1) _ 1). reflexivity.
    + f_equal. f_equal. rewrite <- app_assoc. reflexivity.
  - cbn [forallb]. rewrite andb_true_r. destruct mismatch.
    + split; [discriminate|]. intros H.
      assert (outside_arity (get_or_None "minItems" (heap s1 !!! schema))
                (get_or_None "maxItems" (heap s1 !!! schema))
                (Z.of_nat (length items)) = Val false) as E.
      { apply outside_arity_false. split; [|exact H].
        unfold outside_arity in Harity.
        destruct (hashable _ && hashable _); [reflexivity|discriminate]. }
      congruence.
    + split; [|reflexivity]. intros _.
      apply outside_arity_false in Harity. apply Harity.
Qed.

(** Three items, [minItems] and [maxItems] both 3: a plain 3-ary tuple. *)
Lemma array_tuple_warning_witness :
  APIv4.array (APIv4.get_type unidecode_ascii float_str_none (engine 0) 3)
              0 "Base" (fresh doc_tuple3_pinned)
  = Ok 4
       (State doc_tuple3_pinned
              [ TypeObj (BuiltinType "str") [];
                TypeObj (BuiltinType "int") [];
                TypeObj (BuiltinType "bool") [];
                TypeObj (NativeType "Tuple" "typing") [];
                TypeObj (CombinedType 3 [0; 1; 2]) [] ]
              [""] ∅ []).
Proof.
  assert (Hitems :
    get_or_None "items" (heap (fresh doc_tuple3_pinned) !!! 0)
    = JList [JDict 1; JDict 2; JDict 3]) by reflexivity.
  pose (s1 := State doc_tuple3_pinned
                [ TypeObj (BuiltinType "str") [];
                  TypeObj (BuiltinType "int") [];
                  TypeObj (BuiltinType "bool") [] ] [""] ∅ []).
  assert (Heach :
    for_each (fun item => APIv4.get_type unidecode_ascii float_str_none
                            (engine 0) 3 item "Base" true)
             [JDict 1; JDict 2; JDict 3] (fresh doc_tuple3_pinned)
    = Ok [0; 1; 2] s1) by (vm_compute; reflexivity).
  assert (Harity :
    outside_arity (get_or_None "minItems" (heap s1 !!! 0))
                  (get_or_None "maxItems" (heap s1 !!! 0))
                  (Z.of_nat (length [JDict 1; JDict 2; JDict 3])) = Val false)
    by reflexivity.
  exact (proj1 (proj2 (array_tuple_warning _ 0 "Base" _ _ _ _ _
                         Hitems Heach Harity))).
Defined.

(** Three items, neither [minItems] nor [maxItems]: the tuple carries no
    comment either. *)
Lemma unpinned_tuple_has_no_warning :
  exists s,
    translate 4 doc_tuple3 0 = Ok 4 s
    /\ types s !! 3 = Some (TypeObj (NativeType "Tuple" "typing") [])
    /\ types s !! 4 = Some (TypeObj (CombinedType 3 [0; 1; 2]) []).
Proof. eexists. split; [vm_compute; reflexivity|]. split; reflexivity. Qed.

(** ** The reference cache

    [ref] on a reference other than the self reference. *)





(** *** A reference cycle never returns

    The translation of [doc_cycle] runs out of depth whatever depth it is
    given: a [$ref] to the definition leads [ref] to the object, the object
    to its property, and the property is the same [$ref] again, met with a
    cache that is still empty. *)

Lemma bind_Ok {A B} (m : M A) (f : A -> M B) s a s1 :
  m s = Ok a s1 -> bind m f s = f a s1.
Proof. unfold bind. intros ->. reflexivity. Qed.

Lemma bind_NoFuel {A B} (m : M A) (f : A -> M B) s :
  (exists s', m s = NoFuel s') -> exists s', bind m f s = NoFuel s'.
Proof. unfold bind. intros [s' ->]. exists s'. reflexivity. Qed.

Lemma try_finally_NoFuel {A} (body : M A) (final : M unit) s :
  (exists s', body s = NoFuel s') ->
  exists s', try_finally body final s = NoFuel s'.
Proof. unfold try_finally. intros [s' ->]. exists s'. reflexivity. Qed.

(** Reading the document, and the dictionary created last. *)
Lemma read_cycle (i : loc) rest ty sc m lg :
  i < 5 ->
  read i (State (doc_cycle ++ rest) ty sc m lg)
  = Ok (doc_cycle !!! i) (State (doc_cycle ++ rest) ty sc m lg).
Proof.
  intros Hi. unfold read. cbn [heap]. f_equal.
  apply lookup_total_app_l. exact Hi.
Qed.

Lemma read_last h (c : pydict json) ty sc m lg :
  read (length h) (State (h ++ [c]) ty sc m lg)
  = Ok c (State (h ++ [c]) ty sc m lg).
Proof.
  unfold read. cbn [heap]. f_equal.
  apply list_lookup_total_middle. reflexivity.
Qed.

Lemma update_from_last h (c : pydict json) (r : loc) ty sc m lg :
  r < length h ->
  update_from (length h) (JDict r) (State (h ++ [c]) ty sc m lg)
  = Ok tt (State (h ++ [dict_update c (h !!! r)]) ty sc m lg).
Proof.
  intros Hr. unfold update_from. rewrite (bind_Ok _ _ _ _ _ (read_last _ _ _ _ _ _)).
  unfold bind, read, write. cbn [heap types scopes ref_type resolve_log].
  f_equal. f_equal.
  - rewrite lookup_total_app_l by exact Hr.
    replace (length h) with (length h + 0) by lia.
    rewrite insert_app_r. reflexivity.
Qed.

(** Running the head of a computation: a step that returns, a test or a
    match on a value that is known. *)
Ltac projections := cbn [heap types scopes ref_type resolve_log].
Ltac head_ok := erewrite bind_Ok by reflexivity; cbv beta iota; projections.
Ltac head_if :=
  lazymatch goal with
  | |- exists s', (if ?c then _ else _) _ = _ =>
      let b := eval vm_compute in c in change c with b; cbv beta iota
  end.
Ltac head_match :=
  lazymatch goal with
  | |- exists s', (match ?c with _ => _ end) _ = _ =>
      let b := eval vm_compute in c in change c with b; cbv beta iota
  end.

(** From the reference to the copy updated with the definition. *)
Lemma cycle_ref_step rec rest ty sc m lg name (r : loc) aa :
  r = 0 \/ r = 4 ->
  m !! "#/definitions/node" = None ->
  (forall sc' lg', exists s',
     rec (JDict (length (doc_cycle ++ rest))) name true
         (State ((doc_cycle ++ rest)
                 ++ [dict_update (dict_del "$ref" (doc_cycle !!! r))
                       [("type", JStr "object"); ("properties", JDict 3)]])
                ty sc' m lg') = NoFuel s') ->
  exists s',
    APIv4.get_type_body unidecode_ascii float_str_none (engine 0) rec
      (JDict r) name aa (State (doc_cycle ++ rest) ty sc m lg) = NoFuel s'.
Proof.
  intros Hr Hm Hrec.
  unfold APIv4.get_type_body. apply bind_NoFuel.
  unfold APIv4._get_type_internal.
  rewrite (bind_Ok _ _ _ _ _ (read_cycle r rest ty sc m lg ltac:(lia))).
  assert (Hlen : 2 < length (doc_cycle ++ rest))
    by (rewrite length_app; cbn; lia).
  destruct Hr as [-> | ->].
  all: head_ok; head_ok; head_ok; head_if; head_if;
    unfold APIv4.ref;
    erewrite bind_Ok by (apply read_cycle; lia);
    head_match; head_ok; head_ok; head_if; head_ok; rewrite Hm;
    apply bind_NoFuel;
    change (resolver_has_resolve (engine 0)) with true; cbv beta iota;
    head_ok; head_ok;
    apply try_finally_NoFuel;
    erewrite bind_Ok by (apply update_from_last; exact Hlen);
    rewrite (lookup_total_app_l doc_cycle rest (2 : loc)) by (cbn; lia);
    apply Hrec.
Qed.

Lemma get_name_returns unidecode schema proposed_name upper name :
  base_name schema proposed_name = Val name ->
  unidecode name <> "" ->
  exists identifier,
    get_name unidecode schema proposed_name upper = Val identifier.
Proof.
  intros Hname Hne. unfold get_name. rewrite Hname.
  unfold mbind, pyres_bind. rewrite chars_join.
  destruct (chars (unidecode name)) as [|c l] eqn:E; cbn [map].
  - apply chars_nil in E. contradiction.
  - destruct upper; cbv beta iota; eexists; reflexivity.
Qed.

(** From the updated copy, an object, to its property [next]. *)
Lemma cycle_object_step rec rest ty sc m lg tail (r : loc) aa :
  r = 0 \/ r = 4 ->
  (forall name', exists s',
     rec (JDict 4) (String "B" name') false
         (State ((doc_cycle ++ rest)
                 ++ [dict_update (dict_del "$ref" (doc_cycle !!! r))
                       [("type", JStr "object"); ("properties", JDict 3)]])
                ty sc m lg) = NoFuel s') ->
  exists s',
    APIv4.get_type_body unidecode_ascii float_str_none (engine 0) rec
      (JDict (length (doc_cycle ++ rest))) (String "B" tail) aa
      (State ((doc_cycle ++ rest)
              ++ [dict_update (dict_del "$ref" (doc_cycle !!! r))
                    [("type", JStr "object"); ("properties", JDict 3)]])
             ty sc m lg) = NoFuel s'.
Proof.
  intros Hr Hrec.
  unfold APIv4.get_type_body. apply bind_NoFuel.
  unfold APIv4._get_type_internal.
  rewrite (bind_Ok _ _ _ _ _ (read_last _ _ _ _ _ _)).
  destruct Hr as [-> | ->].
  all: head_ok; head_ok; head_ok; head_if; head_if; head_if; head_match;
    head_ok;
    unfold APIv4._get_type;
    rewrite (bind_Ok _ _ _ _ _ (read_last _ _ _ _ _ _));
    head_ok; head_if; head_ok; head_match;
    unfold APIv4.call, APIv4.object;
    rewrite (bind_Ok _ _ _ _ _ (read_last _ _ _ _ _ _)).
  all: match goal with
       | |- context [get_name unidecode_ascii (Some ?d) (Some ?n) false] =>
           destruct (get_name_returns unidecode_ascii (Some d) (Some n) false n
                       eq_refl ltac:(discriminate)) as [identifier ->]
       end.
  all: head_ok; head_ok;
    rewrite (bind_Ok _ _ _ _ _ (read_last _ _ _ _ _ _));
    head_ok; head_ok; head_if; head_match; head_ok.
  all: head_ok; apply bind_NoFuel;
    change (length (_ !!! (3 : loc))) with 1;
    cbn [APIv4.struct_items];
    head_ok; head_if; head_match;
    apply bind_NoFuel; apply (Hrec (tail +:+ " " +:+ "next")).
Qed.

Lemma cycle_descends depth :
  (forall (r : loc) rest ty sc m lg tail aa,
     r = 0 \/ r = 4 ->
     m !! "#/definitions/node" = None ->
     exists s',
       APIv4.get_type unidecode_ascii float_str_none (engine 0) depth
         (JDict r) (String "B" tail) aa
         (State (doc_cycle ++ rest) ty sc m lg) = NoFuel s')
  /\ (forall (r : loc) rest ty sc m lg tail aa,
        r = 0 \/ r = 4 ->
        m !! "#/definitions/node" = None ->
        exists s',
          APIv4.get_type unidecode_ascii float_str_none (engine 0) depth
            (JDict (length (doc_cycle ++ rest))) (String "B" tail) aa
            (State ((doc_cycle ++ rest)
                    ++ [dict_update (dict_del "$ref" (doc_cycle !!! r))
                          [("type", JStr "object"); ("properties", JDict 3)]])
                   ty sc m lg) = NoFuel s').
Proof.
  induction depth as [|depth [IHref IHobject]].
  - split; intros; eexists; reflexivity.
  - split; intros r rest ty sc m lg tail aa Hr Hm; cbn [APIv4.get_type].
    + apply cycle_ref_step; [exact Hr|exact Hm|].
      intros sc' lg'. apply IHobject; assumption.
    + apply cycle_object_step; [exact Hr|].
      intros name'. rewrite <- app_assoc.
      apply IHref; [right; reflexivity|exact Hm].
Qed.

(** X1: whatever the depth, the translation of [doc_cycle] does not return:
    it neither yields a Type object nor raises. *)
Theorem cyclic_reference_never_returns depth :
  exists s, translate depth doc_cycle 0 = NoFuel s.
Proof.
  unfold translate.
  change (fresh doc_cycle) with (State (doc_cycle ++ []) [] [""] ∅ []).
  apply (proj1 (cycle_descends depth)); [left; reflexivity|reflexivity].
Qed.

(** ** The scope stack and the input documents *)

(** C2 does not hold of the code on an early return: translating
    [doc_scoped_const], a schema with [$id] and [const], returns the literal
    type and leaves the [$id] on the resolver's scope stack, which is one
    deeper after the call than before; on the fall-through path, as for
    [doc_scoped_string], the stack is as deep after the call as before. *)
Theorem scope_left_on_early_return :
  (exists type_ s,
     translate 2 doc_scoped_const 0 = Ok type_ s
     /\ types s !! type_ = Some (TypeObj (LiteralType (JInt 1)) [])
     /\ scopes (fresh doc_scoped_const) = [""]
     /\ scopes s = ["http://example.com/root.json"; ""])
  /\ (exists type_ s,
        translate 2 doc_scoped_string 0 = Ok type_ s
        /\ types s !! type_ = Some (TypeObj (BuiltinType "str") [])
        /\ scopes (fresh doc_scoped_string) = [""]
        /\ scopes s = [""]).
Proof.
  split; do 2 eexists; (split; [vm_compute; reflexivity|]);
    repeat split; reflexivity.
Qed.

(** C3 does not hold of the code on a conditional: translating
    [doc_conditional] adds the key [properties] to its [then] sub-schema, the
    one that carries [$ref], and adds the property [kind] of the [if]
    sub-schema to the properties of the definition referred to. *)
Theorem conditional_updates_its_input :
  exists type_ s,
    translate 4 doc_conditional 0 = Ok type_ s
    /\ doc_conditional !! (3 : loc)
       = Some [("$ref", JStr "#/definitions/sized")]
    /\ heap s !! (3 : loc)
       = Some [("$ref", JStr "#/definitions/sized"); ("properties", JDict 6)]
    /\ doc_conditional !! (6 : loc) = Some [("size", JDict 8)]
    /\ heap s !! (6 : loc) = Some [("size", JDict 8); ("kind", JDict 7)].
Proof.
  do 2 eexists. split; [vm_compute; reflexivity|]. repeat split; reflexivity.
Qed.

(** ** Dispatch on the type *)

(** C9: on a schema that has an [enum] key, [_get_type] calls the [enum]
    handler, whatever the [type] string it was given, and whatever the
    handler of that name, the recursive call and the resolver are; for a
    non-empty list of values the result is one new [TypeEnum] with the
    synthesized name, those values as they are, and the description. *)
Theorem enum_takes_precedence unidecode float_str self rec schema schema_type
    proposed_name s value values title name descriptions :
  dict_get "enum" (heap s !!! schema) = Some (JList (value :: values)) ->
  title_or (heap s !!! schema) proposed_name = Val title ->
  get_name unidecode (Some (heap s !!! schema)) (Some title) false = Val name ->
  get_description float_str (heap s !!! schema) = Val descriptions ->
  APIv4._get_type unidecode float_str self rec schema schema_type
    proposed_name s
  = APIv4.enum unidecode float_str schema title s
  /\ APIv4._get_type unidecode float_str self rec schema schema_type
       proposed_name s
     = Ok (length (types s))
          (State (heap s)
                 (types s
                  ++ [TypeObj (TypeEnum name (value :: values) descriptions) []])
                 (scopes s) (ref_type s) (resolve_log s)).
Proof.
  intros Henum Htitle Hname Hdescriptions.
  assert (Hhas : dict_has "enum" (heap s !!! schema) = true)
    by (unfold dict_has; rewrite Henum; reflexivity).
  assert (Hdispatch :
    APIv4._get_type unidecode float_str self rec schema schema_type
      proposed_name s
    = APIv4.enum unidecode float_str schema title s).
  { unfold APIv4._get_type, bind, read at 1. rewrite Htitle.
    cbn [lift ret]. rewrite Hhas. reflexivity. }
  split; [exact Hdispatch|]. rewrite Hdispatch.
  unfold APIv4.enum, bind, read at 1. rewrite Hname. cbn [lift ret].
  rewrite Henum, Hdescriptions. reflexivity.
Qed.

(** Values that are not integers under [type: integer]: the enumeration of
    the two strings, with a recursive call that could not return. *)
Lemma enum_takes_precedence_witness :
  APIv4._get_type unidecode_ascii float_str_none (engine 0)
    (APIv4.get_type unidecode_ascii float_str_none (engine 0) 0)
    0 "integer" "Base" (fresh doc_enum_typed)
  = Ok 0
       (State doc_enum_typed
              [TypeObj (TypeEnum "_Base" [JStr "low"; JStr "high"] []) []]
              [""] ∅ []).
Proof.
  assert (Henum : dict_get "enum" (heap (fresh doc_enum_typed) !!! (0 : loc))
                  = Some (JList [JStr "low"; JStr "high"])) by reflexivity.
  assert (Htitle : title_or (heap (fresh doc_enum_typed) !!! (0 : loc)) "Base"
                   = Val "Base") by reflexivity.
  assert (Hname : get_name unidecode_ascii
                    (Some (heap (fresh doc_enum_typed) !!! (0 : loc)))
                    (Some "Base") false = Val "_Base")
    by (vm_compute; reflexivity).
  assert (Hdescriptions :
            get_description float_str_none
              (heap (fresh doc_enum_typed) !!! (0 : loc)) = Val [])
    by (vm_compute; reflexivity).
  exact (proj2 (enum_takes_precedence unidecode_ascii float_str_none
                  (engine 0)
                  (APIv4.get_type unidecode_ascii float_str_none (engine 0) 0)
                  0 "integer" "Base" (fresh doc_enum_typed) _ _ _ _ _
                  Henum Htitle Hname Hdescriptions)).
Defined.

(** The loop of [_get_type_internal] over the type strings follows
    [translated_each]. *)
Lemma type_list_each unidecode float_str self rec schema_copy title
    type_names s inner_types s1 :
  translated_each
    (fun primitive_type =>
       APIv4._get_type unidecode float_str self rec schema_copy
         primitive_type (title +:+ " " +:+ primitive_type))
    type_names s inner_types s1 ->
  APIv4.type_list unidecode float_str self rec schema_copy title
    (map JStr type_names) s = Ok inner_types s1.
Proof.
  unfold APIv4.type_list.
  induction 1 as [s|primitive_type rest s type_ s1 types_ s2 Hone _ IH];
    cbn [map for_each].
  - reflexivity.
  - unfold bind at 1. unfold bind at 1. cbn [as_str lift ret].
    rewrite Hone. unfold bind at 1. rewrite IH. reflexivity.
Qed.

Lemma translated_each_length one type_names s inner_types s1 :
  translated_each one type_names s inner_types s1 ->
  length inner_types = length type_names.
Proof. induction 1; cbn [length]; congruence. Qed.

(** C8: when [_get_type_internal] reaches a [type] that is a list of type
    strings (the schema has no [if], [$ref] or [const], which are dispatched
    first), it copies the schema without its [title], translates each type
    string against that copy by [_get_type], one after the other, and
    returns a new [Union] combined with the results, in the order of the
    list. *)
Theorem type_list_union unidecode float_str self rec schema proposed_name s
    scope title type_names inner_types s1 :
  let d := heap s !!! schema in
  let schema_copy := length (heap s) in
  let entered :=
    State (heap s ++ [dict_del "title" d]) (types s)
          (if nonempty scope then scope :: scopes s else scopes s)
          (ref_type s) (resolve_log s) in
  dict_has "if" d = false ->
  dict_has "$ref" d = false ->
  dict_has "const" d = false ->
  APIv4.scope_of d = Val scope ->
  title_or d proposed_name = Val title ->
  get_or_None "type" d = JList (map JStr type_names) ->
  translated_each
    (fun primitive_type =>
       APIv4._get_type unidecode float_str self rec schema_copy
         primitive_type (title +:+ " " +:+ primitive_type))
    type_names entered inner_types s1 ->
  length inner_types = length type_names
  /\ APIv4._get_type_internal unidecode float_str self rec schema
       proposed_name s
     = Ok (S (length (types s1)))
          (State (heap s1)
                 (types s1
                  ++ [ TypeObj (NativeType "Union" "typing") [];
                       TypeObj (CombinedType (length (types s1)) inner_types)
                               [] ])
                 (scopes s1) (ref_type s1) (resolve_log s1)).
Proof.
  intros d schema_copy entered Hif Href Hconst Hscope Htitle Htype Heach.
  split; [eapply translated_each_length, Heach|].
  apply type_list_each in Heach.
  unfold APIv4._get_type_internal, bind, read at 1. fold d.
  rewrite Hscope. cbn [lift ret].
  assert (Hentered :
    when (nonempty scope) (push_scope scope) s
    = Ok tt (State (heap s) (types s)
                   (if nonempty scope then scope :: scopes s else scopes s)
                   (ref_type s) (resolve_log s))).
  { unfold when, push_scope, ret. destruct (nonempty scope), s; reflexivity. }
  rewrite Hentered, Htitle. cbn [lift ret].
  rewrite Hif, Href, Hconst, Htype.
  unfold new_dict at 1. cbn [heap types scopes ref_type resolve_log].
  fold schema_copy entered. rewrite Heach.
  unfold APIv4.combined, bind, new_type.
  cbn [heap types scopes ref_type resolve_log].
  rewrite length_app. cbn [length]. rewrite Nat.add_comm. cbn [Nat.add].
  rewrite <- app_assoc. reflexivity.
Qed.

(** [doc_type_list]: the union of [str] and [int], in that order; the copy
    equals the schema, which has no title. *)
Lemma type_list_union_witness :
  APIv4._get_type_internal unidecode_ascii float_str_none (engine 0)
    (APIv4.get_type unidecode_ascii float_str_none (engine 0) 0)
    0 "Base" (fresh doc_type_list)
  = Ok 3
       (State (doc_type_list ++ doc_type_list)
              [ TypeObj (BuiltinType "str") [];
                TypeObj (BuiltinType "int") [];
                TypeObj (NativeType "Union" "typing") [];
                TypeObj (CombinedType 2 [0; 1]) [] ]
              [""] ∅ []).
Proof.
  pose (one := fun primitive_type =>
    APIv4._get_type unidecode_ascii float_str_none (engine 0)
      (APIv4.get_type unidecode_ascii float_str_none (engine 0) 0)
      1 primitive_type ("Base" +:+ " " +:+ primitive_type)).
  pose (s0 := State (doc_type_list ++ doc_type_list) [] [""] ∅ []).
  pose (s1 := State (doc_type_list ++ doc_type_list)
                [TypeObj (BuiltinType "str") []] [""] ∅ []).
  pose (s2 := State (doc_type_list ++ doc_type_list)
                [TypeObj (BuiltinType "str") []; TypeObj (BuiltinType "int") []]
                [""] ∅ []).
  assert (Hstring : one "string" s0 = Ok 0 s1) by (vm_compute; reflexivity).
  assert (Hinteger : one "integer" s1 = Ok 1 s2) by (vm_compute; reflexivity).
  exact (proj2 (type_list_union unidecode_ascii float_str_none (engine 0)
                  (APIv4.get_type unidecode_ascii float_str_none (engine 0) 0)
                  0 "Base" (fresh doc_type_list) "" "Base"
                  ["string"; "integer"] [0; 1] s2
                  eq_refl eq_refl eq_refl eq_refl eq_refl eq_refl
                  (translated_cons one "string" ["integer"] s0 0 s1 [1] s2
                     Hstring
                     (translated_cons one "integer" [] s1 1 s2 [] s2
                        Hinteger (translated_nil one s2))))).
Defined.

(** ** Unsupported constructs *)

Lemma title_or_idem d proposed_name title :
  title_or d proposed_name = Val title -> title_or d title = Val title.
Proof.
  unfold title_or. destruct (dict_get "title" d); [auto|reflexivity].
Qed.

Lemma scope_pushed_and_popped scope s :
  (when (nonempty scope) (push_scope scope) ;;;
   when (nonempty scope) pop_scope) s = Ok tt s.
Proof.
  unfold bind, when, push_scope, pop_scope, ret.
  destruct (nonempty scope), s; reflexivity.
Qed.

(** What [_get_type_internal] does on a schema that reaches the dispatch on
    a single type string. *)
Lemma _get_type_internal_single unidecode float_str self rec schema
    proposed_name s scope title schema_type :
  dict_has "if" (heap s !!! schema) = false ->
  dict_has "$ref" (heap s !!! schema) = false ->
  dict_has "const" (heap s !!! schema) = false ->
  APIv4.scope_of (heap s !!! schema) = Val scope ->
  title_or (heap s !!! schema) proposed_name = Val title ->
  get_or_None "type" (heap s !!! schema) = JStr schema_type ->
  APIv4._get_type_internal unidecode float_str self rec schema proposed_name s
  = APIv4._get_type unidecode float_str self rec schema schema_type title s.
Proof.
  intros Hif Href Hconst Hscope Htitle Htype.
  unfold APIv4._get_type_internal, bind, read at 1.
  rewrite Hscope. cbn [lift ret].
  pose proof (scope_pushed_and_popped scope s) as Hpop.
  unfold bind in Hpop.
  destruct (when (nonempty scope) (push_scope scope) s) as [[] s1|e s1|s1];
    try discriminate.
  rewrite Htitle. cbn [lift ret]. rewrite Hif, Href, Hconst, Htype.
  rewrite Hpop. reflexivity.
Qed.

(** An exception of [_get_type_internal] leaves [get_type] as it is. *)
Lemma get_type_raises unidecode float_str self depth schema proposed_name
    auto_alias s e :
  APIv4._get_type_internal unidecode float_str self
    (APIv4.get_type unidecode float_str self depth) schema proposed_name s
  = Raise e s ->
  APIv4.get_type unidecode float_str self (S depth) (JDict schema)
    proposed_name auto_alias s = Raise e s.
Proof.
  intros H. cbn [APIv4.get_type]. unfold APIv4.get_type_body, bind.
  rewrite H. reflexivity.
Qed.

(** C7, as amended: on a schema that reaches the dispatch on a single type
    string (no [if], [$ref], [const] or [enum], which are dispatched first),
    translation raises, leaving the engine as it was and building no Type
    object, when the type names no attribute of the engine
    ([get_type_handler] raises [NotImplementedError], or [AttributeError]
    for a name that starts with an underscore: it never returns [None]) and
    when the type is [array] with [items] the boolean false ([array] raises
    [NotImplementedError]); an [array] without [items] is the commented
    placeholder instead.  These are not the only schemas that fail
    hard. *)
Theorem unsupported_construct_raises unidecode float_str self depth schema
    proposed_name auto_alias s scope title schema_type :
  let d := heap s !!! schema in
  let error :=
    if startswith schema_type "_" then AttributeError
    else NotImplementedError in
  dict_has "if" d = false ->
  dict_has "$ref" d = false ->
  dict_has "const" d = false ->
  dict_has "enum" d = false ->
  APIv4.scope_of d = Val scope ->
  title_or d proposed_name = Val title ->
  get_or_None "type" d = JStr schema_type ->
  (getattr schema_type = None ->
   get_type_handler schema_type = Exc error
   /\ APIv4.get_type unidecode float_str self (S depth) (JDict schema)
        proposed_name auto_alias s = Raise error s)
  /\ (schema_type = "array" ->
      get_or_None "items" d = JBool false ->
      (forall rec name,
         APIv4.array rec schema name s = Raise NotImplementedError s)
      /\ APIv4.get_type unidecode float_str self (S depth) (JDict schema)
           proposed_name auto_alias s = Raise NotImplementedError s)
  /\ (schema_type = "array" ->
      get_or_None "items" d = JNull ->
      forall rec name,
        APIv4.array rec schema name s
        = Ok (length (types s))
             (State (heap s)
                    (types s
                     ++ [TypeObj (BuiltinType "None")
                           ["WARNING: we get an array without any items"]])
                    (scopes s) (ref_type s) (resolve_log s))).
Proof.
  intros d error Hif Href Hconst Henum Hscope Htitle Htype.
  pose proof (_get_type_internal_single unidecode float_str self
                (APIv4.get_type unidecode float_str self depth) schema
                proposed_name s scope title schema_type
                Hif Href Hconst Hscope Htitle Htype) as Hsingle.
  apply title_or_idem in Htitle.
  split; [|split].
  - intros Hnone.
    assert (Hhandler : get_type_handler schema_type = Exc error).
    { unfold get_type_handler, error. rewrite Hnone.
      destruct (startswith schema_type "_"); reflexivity. }
    split; [exact Hhandler|].
    apply get_type_raises. rewrite Hsingle.
    unfold APIv4._get_type, bind, read at 1. fold d.
    rewrite Htitle. cbn [lift ret]. rewrite Henum, Hhandler. reflexivity.
  - intros -> Hitems.
    assert (Harray : forall rec name,
      APIv4.array rec schema name s = Raise NotImplementedError s).
    { intros rec name. unfold APIv4.array, bind, read at 1. fold d.
      rewrite Hitems. reflexivity. }
    split; [exact Harray|].
    apply get_type_raises. rewrite Hsingle.
    unfold APIv4._get_type, bind, read at 1. fold d.
    rewrite Htitle. cbn [lift ret]. rewrite Henum.
    change (get_type_handler "array") with (Val (Some a_array)).
    cbn [lift ret APIv4.call]. apply Harray.
  - intros -> Hitems rec name.
    unfold APIv4.array, bind, read at 1. fold d. rewrite Hitems.
    unfold new_type, set_comments, ret.
    cbn [heap types scopes ref_type resolve_log].
    f_equal. f_equal.
    replace (length (types s)) with (length (types s) + 0) at 1 by lia.
    rewrite (alter_app_r _ (types s) _ 0). reflexivity.
Qed.

(** [doc_unknown_type] and [doc_items_false] raise; [doc_no_items] is the
    placeholder. *)
Lemma unsupported_construct_raises_witness :
  translate 2 doc_unknown_type 0
  = Raise NotImplementedError (fresh doc_unknown_type)
  /\ translate 2 doc_items_false 0
     = Raise NotImplementedError (fresh doc_items_false)
  /\ APIv4.array
       (APIv4.get_type unidecode_ascii float_str_none (engine 0) 0)
       0 "Base" (fresh doc_no_items)
     = Ok 0 (State doc_no_items
               [TypeObj (BuiltinType "None")
                  ["WARNING: we get an array without any items"]]
               [""] ∅ []).
Proof.
  split; [|split].
  - exact (proj2 (proj1 (unsupported_construct_raises
                    unidecode_ascii float_str_none (engine 0) 1 0 "Base" true
                    (fresh doc_unknown_type) "" "Base" "decimal"
                    eq_refl eq_refl eq_refl eq_refl eq_refl eq_refl eq_refl)
                  eq_refl)).
  - exact (proj2 (proj1 (proj2 (unsupported_construct_raises
                    unidecode_ascii float_str_none (engine 0) 1 0 "Base" true
                    (fresh doc_items_false) "" "Base" "array"
                    eq_refl eq_refl eq_refl eq_refl eq_refl eq_refl eq_refl))
                  eq_refl eq_refl)).
  - exact (proj2 (proj2 (unsupported_construct_raises
                    unidecode_ascii float_str_none (engine 0) 1 0 "Base" true
                    (fresh doc_no_items) "" "Base" "array"
                    eq_refl eq_refl eq_refl eq_refl eq_refl eq_refl eq_refl))
                  eq_refl eq_refl
                  (APIv4.get_type unidecode_ascii float_str_none (engine 0) 0)
                  "Base").
Defined.

(** These are not the only schemas on which translation fails hard: a
    supported type under an empty title raises [IndexError] when the alias
    is named, after the Type object has been built, and an enumeration
    without values fails the assertion of [TypeEnum]. *)
Lemma hard_failures_elsewhere :
  translate 2 doc_empty_title 0
  = Raise IndexError
          (State doc_empty_title [TypeObj (BuiltinType "str") []] [""] ∅ [])
  /\ translate 2 doc_enum_empty 0
     = Raise AssertionError (fresh doc_enum_empty).
Proof. split; vm_compute; reflexivity. Qed.

(** * Further properties *)

(** ** The characters of a synthesized name *)

Lemma chars_append a b : chars (a +:+ b) = chars a ++ chars b.
Proof.
  unfold chars. induction a as [|c a IH]; simpl; [reflexivity|].
  f_equal. exact IH.
Qed.

Lemma to_upper_name_char c :
  char_in c (" "%char :: authorised_char) = true ->
  char_in (to_upper c) (" "%char :: authorised_char) = true /\ is_lower (to_upper c) = false.
Proof.
  destruct c as [[] [] [] [] [] [] [] []]; vm_compute; intros H;
    try discriminate H; split; reflexivity.
Qed.

Lemma to_lower_name_char c :
  char_in c (" "%char :: authorised_char) = true -> char_in (to_lower c) (" "%char :: authorised_char) = true.
Proof.
  destruct c as [[] [] [] [] [] [] [] []]; vm_compute; intros H;
    try discriminate H; reflexivity.
Qed.

Lemma isspace_name_char c :
  char_in c (" "%char :: authorised_char) = true ->
  if isspace c then c = " "%char else char_in c authorised_char = true.
Proof.
  destruct c as [[] [] [] [] [] [] [] []]; vm_compute; intros H;
    try discriminate H; reflexivity.
Qed.

Lemma title_from_name_char previous l :
  Forall (fun c => char_in c (" "%char :: authorised_char) = true) l ->
  Forall (fun c => char_in c (" "%char :: authorised_char) = true) (title_from previous l).
Proof.
  intros H. revert previous.
  induction H as [|c l Hc _ IH]; intros previous; cbn [title_from].
  - constructor.
  - constructor; [|apply IH].
    destruct previous;
      [apply to_lower_name_char|apply to_upper_name_char]; exact Hc.
Qed.

(** X2: whatever the transliteration, a name that [get_name] returns is
    made of ASCII letters, digits and underscores only, and in upper mode it
    has no lower-case letter. *)
Theorem get_name_identifier_chars unidecode schema proposed_name upper
    identifier :
  get_name unidecode schema proposed_name upper = Val identifier ->
  Forall (fun c => char_in c ("_"%char :: authorised_char) = true)
         (chars identifier)
  /\ (upper = true ->
      Forall (fun c => is_lower c = false) (chars identifier)).
Proof.
  unfold get_name.
  destruct (base_name schema proposed_name) as [name|e]; [|discriminate].
  unfold mbind, pyres_bind. rewrite chars_join.
  set (replaced := map (fun c => if char_in c authorised_char then c
                                 else " "%char) (chars (unidecode name))).
  assert (Hreplaced : Forall (fun c => char_in c (" "%char :: authorised_char) = true) replaced).
  { unfold replaced. apply Forall_map, Forall_forall. intros c _.
    destruct (char_in c authorised_char) eqn:E; [|reflexivity].
    cbn [char_in existsb]. fold (char_in c authorised_char).
    rewrite E. apply orb_true_r. }
  destruct replaced as [|c0 l] eqn:E; [discriminate|].
  set (numbered := if char_in c0 (char_range "0" "9")
                   then "num " +:+ join (c0 :: l) else join (c0 :: l)).
  assert (Hnumbered : Forall (fun c => char_in c (" "%char :: authorised_char) = true) (chars numbered)).
  { unfold numbered. destruct (char_in c0 (char_range "0" "9")).
    - rewrite chars_append, chars_join. apply Forall_app. split; [|exact Hreplaced].
      repeat constructor.
    - rewrite chars_join. exact Hreplaced. }
  set (named := if str_in (str_lower numbered) python_keywords
                then numbered +:+ " name" else numbered).
  assert (Hnamed : Forall (fun c => char_in c (" "%char :: authorised_char) = true) (chars named)).
  { unfold named. destruct (str_in (str_lower numbered) python_keywords).
    - rewrite chars_append. apply Forall_app. split; [exact Hnumbered|].
      repeat constructor.
    - exact Hnumbered. }
  clearbody named. clear numbered Hnumbered E Hreplaced.
  set (prefix := if match schema with
                    | Some d => dict_has "title" d
                    | None => false
                    end then "" else "_").
  assert (Hprefix : Forall (fun c => char_in c ("_"%char :: authorised_char) = true
                                     /\ is_lower c = false) (chars prefix)).
  { unfold prefix. destruct (match schema with Some d => _ | None => _ end);
      repeat constructor. }
  clearbody prefix.
  destruct upper; intros [= <-]; rewrite chars_append, chars_join.
  - assert (Hupper : Forall (fun c => char_in c ("_"%char :: authorised_char) = true
                                      /\ is_lower c = false)
                       (map (fun char => if isspace char then "_"%char else char)
                            (chars (str_upper named)))).
    { unfold str_upper. rewrite chars_join, map_map. apply Forall_map.
      eapply Forall_impl; [exact Hnamed|]. intros c Hc. cbv beta.
      apply to_upper_name_char in Hc as [Hc Hlow].
      pose proof (isspace_name_char _ Hc) as Hspace.
      destruct (isspace (to_upper c)).
      - split; reflexivity.
      - split; [|exact Hlow]. cbn [char_in existsb].
        fold (char_in (to_upper c) authorised_char).
        rewrite Hspace. apply orb_true_r. }
    split.
    + apply Forall_app. split; (eapply Forall_impl; [eassumption|]);
        intros c [H _]; exact H.
    + intros _. apply Forall_app. split; (eapply Forall_impl; [eassumption|]);
        intros c [_ H]; exact H.
  - split; [|discriminate].
    apply Forall_app. split.
    + eapply Forall_impl; [exact Hprefix|]. intros c [H _]. exact H.
    + unfold str_title. rewrite chars_join.
      pose proof (title_from_name_char false _ Hnamed) as Htitle.
      induction Htitle as [|c l' Hc _ IH]; cbn [List.filter]; [constructor|].
      pose proof (isspace_name_char _ Hc) as Hspace.
      destruct (isspace c); cbn [negb]; [exact IH|].
      constructor; [|exact IH]. cbn [char_in existsb].
      fold (char_in c authorised_char). rewrite Hspace. apply orb_true_r.
Qed.

Lemma get_name_identifier_chars_witness :
  get_name unidecode_ascii (Some [("title", JStr "my class, 2nd")]) None true
  = Val "MY_CLASS__2ND"
  /\ Forall (fun c => is_lower c = false) (chars "MY_CLASS__2ND").
Proof.
  assert (H : get_name unidecode_ascii (Some [("title", JStr "my class, 2nd")])
                None true = Val "MY_CLASS__2ND") by (vm_compute; reflexivity).
  split; [exact H|].
  exact (proj2 (get_name_identifier_chars unidecode_ascii _ _ _ _ H) eq_refl).
Defined.

(** ** The layout of a description *)

Lemma description_items_layout float_str first result items :
  description_items float_str first result items
  = result
    ++ (match first, result,
              omap (fun kv : string * json =>
                      if str_in kv.1 consumed_keys then None
                      else (fun text => kv.1 +:+ ": " +:+ text)
                             <$> py_str float_str kv.2) items with
        | true, _ :: _, _ :: _ => [""]
        | _, _, _ => []
        end)
    ++ omap (fun kv : string * json =>
               if str_in kv.1 consumed_keys then None
               else (fun text => kv.1 +:+ ": " +:+ text)
                      <$> py_str float_str kv.2) items.
Proof.
  revert first result.
  induction items as [|[key value] items IH]; intros first result;
    cbn [description_items omap list_omap fst snd].
  - destruct first, result; cbn [app]; now rewrite ?app_nil_r.
  - destruct (py_str float_str value) as [text|] eqn:Etext; cbn [fmap option_fmap option_map].
    + destruct (str_in key consumed_keys); [apply IH|].
      rewrite IH. destruct first.
      * destruct result as [|line result]; cbn [app].
        -- destruct (omap _ items); reflexivity.
        -- rewrite <- !app_assoc. cbn [app].
           destruct (omap _ items); reflexivity.
      * destruct (result ++ _) eqn:E; [now destruct result|].
        rewrite <- E, <- !app_assoc. reflexivity.
    + destruct (str_in key consumed_keys); apply IH.
Qed.

(** X3: for a schema whose title and description are strings or absent,
    [get_description] returns the title, the description and the
    [key: value] lines of the other entries, in the order of the schema,
    each of these parts separated from the next by one empty line; entries
    whose value is a list or a dictionary and the keys the translation
    consumes give no line. *)
Theorem get_description_layout float_str schema :
  let text_of key :=
    match dict_get key schema with
    | Some (JStr text) => Some text
    | _ => None
    end in
  let head :=
    match text_of "title", text_of "description" with
    | Some title, Some description => [title; ""; description]
    | Some title, None => [title]
    | None, Some description => [description]
    | None, None => []
    end in
  let lines :=
    omap (fun kv : string * json =>
            if str_in kv.1 consumed_keys then None
            else (fun text => kv.1 +:+ ": " +:+ text)
                   <$> py_str float_str kv.2) schema in
  (forall key, key = "title" \/ key = "description" ->
     dict_get key schema = None
     \/ exists text, dict_get key schema = Some (JStr text)) ->
  get_description float_str schema
  = Val (head
         ++ (match head, lines with _ :: _, _ :: _ => [""] | _, _ => [] end)
         ++ lines).
Proof.
  intros text_of head lines Hstr.
  unfold get_description, mbind, pyres_bind.
  assert (Hhead : description_head schema ["title"; "description"] []
                  = Val head).
  { unfold head, text_of. cbn [description_head].
    destruct (Hstr "title" (or_introl eq_refl)) as [-> | [title ->]];
      destruct (Hstr "description" (or_intror eq_refl))
        as [-> | [description ->]]; reflexivity. }
  rewrite Hhead, description_items_layout. fold lines.
  destruct head, lines; reflexivity.
Qed.

Lemma get_description_layout_witness :
  get_description float_str_none
    [ ("title", JStr "Port"); ("type", JStr "integer"); ("minimum", JInt 1);
      ("examples", JList [JInt 80]); ("default", JInt 8080) ]
  = Val ["Port"; ""; "minimum: 1"; "default: 8080"].
Proof.
  apply (get_description_layout float_str_none
           [ ("title", JStr "Port"); ("type", JStr "integer");
             ("minimum", JInt 1); ("examples", JList [JInt 80]);
             ("default", JInt 8080) ]).
  intros key [-> | ->]; [right; eexists; reflexivity|left; reflexivity].
Defined.

(** ** The Type store stays well formed *)

#[local] Set Warnings "-clear-no-such-hyp".

Lemma extends_refl s : extends s s.
Proof. intros t o H. exists o. split; [exact H|reflexivity]. Qed.

Lemma extends_trans s1 s2 s3 : extends s1 s2 -> extends s2 s3 -> extends s1 s3.
Proof.
  intros H12 H23 t o H. destruct (H12 t o H) as (o2 & H2 & E2).
  destruct (H23 t o2 H2) as (o3 & H3 & E3). exists o3.
  split; [exact H3|congruence].
Qed.

Lemma extends_length s s' : extends s s' -> length (types s) <= length (types s').
Proof.
  intros H. destruct (types s) as [|o l] eqn:E using rev_ind; [cbn; lia|].
  destruct (H (length l) o) as (o' & H' & _).
  - rewrite E. apply list_lookup_middle. reflexivity.
  - apply lookup_lt_Some in H'. rewrite length_app. cbn. lia.
Qed.

Lemma known_extends s s' (known : list tloc) :
  extends s s' ->
  Forall (fun t => t < length (types s)) known ->
  Forall (fun t => t < length (types s')) known.
Proof.
  intros H Hk. apply extends_length in H.
  eapply Forall_impl; [exact Hk|]. intros t. cbv beta. lia.
Qed.

Lemma good_ret {A} known (a : A) locs :
  locs a ⊆ known -> good known (ret a) locs.
Proof.
  intros Hin s Hwf Hknown. unfold ret. split; [exact Hwf|].
  split; [apply extends_refl|].
  rewrite Forall_forall in *. intros t Ht. apply Hknown, Hin, Ht.
Qed.

Lemma good_bind {A B} known (m : M A) (f : A -> M B) locsA locsB :
  good known m locsA ->
  (forall a, good (locsA a ++ known) (f a) locsB) ->
  good known (bind m f) locsB.
Proof.
  intros Hm Hf s Hwf Hknown. unfold bind. specialize (Hm s Hwf Hknown).
  destruct (m s) as [a s1|e s1|s1]; [|exact Hm..].
  destruct Hm as (Hwf1 & Hext1 & Ha).
  specialize (Hf a s1 Hwf1).
  assert (Forall (fun t => t < length (types s1)) (locsA a ++ known)) as Hk
    by (apply Forall_app; split; [exact Ha|eapply known_extends; eassumption]).
  specialize (Hf Hk).
  destruct (f a s1) as [b s2|e s2|s2].
  - destruct Hf as (? & ? & ?). split; [assumption|].
    split; [eapply extends_trans; eassumption|assumption].
  - destruct Hf. split; [assumption|eapply extends_trans; eassumption].
  - destruct Hf. split; [assumption|eapply extends_trans; eassumption].
Qed.

Lemma good_weaken {A} known known' (m : M A) locs :
  good known m locs -> known ⊆ known' -> good known' m locs.
Proof.
  intros Hm Hin s Hwf Hknown. apply Hm; [exact Hwf|].
  rewrite Forall_forall in *. intros t Ht. apply Hknown, Hin, Ht.
Qed.

Lemma good_leaves_types {A} known (m : M A) :
  leaves_types m -> good known m (fun _ => []).
Proof.
  intros Hm s [Hchildren Hcache] _. specialize (Hm s).
  assert (forall s', types s' = types s /\ ref_type s' = ref_type s ->
                     wf s' /\ extends s s') as Hsame.
  { intros s' [Ht Hr]. split.
    - split; [rewrite Ht; exact Hchildren|rewrite Ht, Hr; exact Hcache].
    - intros t o H. exists o. rewrite Ht. split; [exact H|reflexivity]. }
  destruct (m s) as [a s'|e s'|s'].
  - destruct (Hsame s' Hm). split; [assumption|]. split; [assumption|].
    constructor.
  - apply Hsame, Hm.
  - apply Hsame, Hm.
Qed.

Lemma leaves_types_bind {A B} (m : M A) (f : A -> M B) :
  leaves_types m -> (forall a, leaves_types (f a)) -> leaves_types (bind m f).
Proof.
  intros Hm Hf s. unfold bind. specialize (Hm s).
  destruct (m s) as [a s1|e s1|s1]; [|exact Hm..].
  specialize (Hf a s1). destruct Hm as [Ht Hr].
  destruct (f a s1); rewrite <- Ht, <- Hr; exact Hf.
Qed.

Lemma leaves_types_try_finally {A} (body : M A) (final : M unit) :
  leaves_types body -> leaves_types final ->
  leaves_types (try_finally body final).
Proof.
  intros Hb Hf s. unfold try_finally. specialize (Hb s).
  destruct (body s) as [a s1|e s1|s1]; [| |exact Hb];
    specialize (Hf s1); destruct Hb as [Ht Hr];
    destruct (final s1); rewrite <- Ht, <- Hr; exact Hf.
Qed.

Lemma leaves_types_ret {A} (a : A) : leaves_types (ret a).
Proof. intros s. split; reflexivity. Qed.

Lemma leaves_types_raise {A} e : leaves_types (@raise A e).
Proof. intros s. split; reflexivity. Qed.

Lemma leaves_types_lift {A} (r : pyres A) : leaves_types (lift r).
Proof. destruct r; [apply leaves_types_ret|apply leaves_types_raise]. Qed.

Lemma leaves_types_read r : leaves_types (read r).
Proof. intros s. split; reflexivity. Qed.

Lemma leaves_types_new_dict d : leaves_types (new_dict d).
Proof. intros s. split; reflexivity. Qed.

Lemma leaves_types_write r d : leaves_types (write r d).
Proof. intros s. split; reflexivity. Qed.

Lemma leaves_types_push_scope scope : leaves_types (push_scope scope).
Proof. intros s. split; reflexivity. Qed.

Lemma leaves_types_pop_scope : leaves_types pop_scope.
Proof. intros s. unfold pop_scope. destruct (scopes s); split; reflexivity. Qed.

Lemma leaves_types_resolve self ref : leaves_types (resolve self ref).
Proof.
  intros s. unfold resolve.
  destruct (resolver_lookup self (scopes s) (heap s) ref); split; reflexivity.
Qed.

Lemma leaves_types_type_at t : leaves_types (type_at t).
Proof. intros s. split; reflexivity. Qed.

Create HintDb leaves discriminated.
#[export] Hint Resolve leaves_types_ret leaves_types_raise leaves_types_lift
  leaves_types_read leaves_types_new_dict leaves_types_write
  leaves_types_push_scope leaves_types_pop_scope leaves_types_resolve
  leaves_types_type_at : leaves.

Ltac leaves_step :=
  first
    [ solve [auto with leaves]
    | apply leaves_types_bind; [ | intros ? ]
    | apply leaves_types_try_finally
    | match goal with
      | |- leaves_types (match ?x with _ => _ end) => destruct x
      | |- leaves_types (if ?x then _ else _) => destruct x
      | |- leaves_types (let '(_, _) := ?x in _) => destruct x
      end ].
Ltac leaves := repeat leaves_step.

Lemma leaves_types_when b m : leaves_types m -> leaves_types (when b m).
Proof. intros H. unfold when. destruct b; auto with leaves. Qed.

Lemma leaves_types_truthy value : leaves_types (truthy value).
Proof. unfold truthy. leaves. Qed.

Lemma leaves_types_update_from target other :
  leaves_types (update_from target other).
Proof. unfold update_from. leaves. Qed.

Lemma leaves_types_get_or_new schema key : leaves_types (get_or_new schema key).
Proof. unfold get_or_new. leaves. Qed.

Lemma leaves_types_required_set d : leaves_types (required_set d).
Proof. unfold required_set. leaves. Qed.

Lemma leaves_types_comments t : leaves_types (comments t).
Proof. unfold comments. leaves. Qed.

Lemma leaves_types_resolving {A} self ref (body : json -> M A) :
  (forall resolved, leaves_types (body resolved)) ->
  leaves_types (resolving self ref body).
Proof. intros H. unfold resolving. leaves. Qed.

#[export] Hint Resolve leaves_types_when leaves_types_truthy
  leaves_types_update_from leaves_types_get_or_new leaves_types_required_set
  leaves_types_comments leaves_types_resolving : leaves.

Lemma good_new_type known n :
  children_of n ⊆ known -> good known (new_type n) (fun t => [t]).
Proof.
  intros Hin s [Hchildren Hcache] Hknown. unfold new_type.
  rewrite Forall_forall in Hknown.
  split; [split|split]; cbn [types ref_type].
  - intros t o H. apply lookup_app_Some in H as [H|[Hlen H]].
    + apply Hchildren, H.
    + destruct (proj1 (list_lookup_singleton_Some _ _ _) H) as [_ <-].
      cbn [ty_node].
      apply Forall_forall. intros c Hc.
      specialize (Hknown c (Hin c Hc)). lia.
  - intros ref t H. apply Hcache in H. rewrite length_app. lia.
  - intros t o H. exists o. cbn [types]. split; [|reflexivity].
    apply lookup_app_l_Some, H.
  - repeat constructor. rewrite length_app. cbn. lia.
Qed.

Lemma good_set_comments known t c :
  good known (set_comments t c) (fun _ => []).
Proof.
  intros s [Hchildren Hcache] _. unfold set_comments.
  split; [split|split]; cbn [types ref_type].
  - intros t' o H. rewrite list_lookup_alter in H.
    case_decide; [subst t'|apply Hchildren, H].
    apply fmap_Some in H as (o0 & E & ->). apply (Hchildren t o0 E).
  - intros ref t' H. rewrite length_alter. apply Hcache in H. exact H.
  - intros t' o H. cbn [types]. rewrite list_lookup_alter.
    case_decide; [subst t'|].
    + rewrite H. cbn. eexists. split; reflexivity.
    + exists o. split; [exact H|reflexivity].
  - constructor.
Qed.

Lemma good_ref_type_lookup known ref :
  good known (ref_type_lookup ref)
       (fun cached => match cached with Some t => [t] | None => [] end).
Proof.
  intros s Hwf _. unfold ref_type_lookup.
  split; [exact Hwf|]. split; [apply extends_refl|].
  destruct (ref_type s !! ref) as [t|] eqn:E; [|constructor].
  repeat constructor. destruct Hwf as [_ Hcache]. apply (Hcache ref t E).
Qed.

Lemma good_ref_type_store known ref t :
  t ∈ known -> good known (ref_type_store ref t) (fun _ => []).
Proof.
  intros Hin s [Hchildren Hcache] Hknown. unfold ref_type_store.
  rewrite Forall_forall in Hknown.
  split; [split|split]; cbn [types ref_type].
  - exact Hchildren.
  - intros ref' t' H. destruct (decide (ref' = ref)) as [->|Hne].
    + rewrite lookup_insert_eq in H. injection H as <-. apply Hknown, Hin.
    + rewrite lookup_insert_ne in H by congruence. apply (Hcache ref' t' H).
  - intros t' o H. exists o. split; [exact H|reflexivity].
  - constructor.
Qed.

Lemma good_try_finally {A} known (body : M A) (final : M unit) locs :
  good known body locs -> leaves_types final ->
  good known (try_finally body final) locs.
Proof.
  intros Hb Hf s Hwf Hknown. unfold try_finally. specialize (Hb s Hwf Hknown).
  assert (Hsame : forall s1 s2,
            wf s1 -> extends s s1 ->
            types s2 = types s1 /\ ref_type s2 = ref_type s1 ->
            wf s2 /\ extends s s2).
  { intros s1 s2 [Hc1 Hr1] Hext [Ht Hr]. split.
    - split; [rewrite Ht; exact Hc1|rewrite Ht, Hr; exact Hr1].
    - intros t o H. rewrite Ht. apply Hext, H. }
  destruct (body s) as [a s1|e s1|s1]; [| |exact Hb].
  - destruct Hb as (Hwf1 & Hext & Ha). specialize (Hf s1).
    destruct (final s1) as [[] s2|e s2|s2];
      destruct (Hsame s1 s2 Hwf1 Hext Hf) as [Hwf2 Hext2];
      [|split; assumption..].
    split; [exact Hwf2|]. split; [exact Hext2|].
    destruct Hf as [-> _]. exact Ha.
  - destruct Hb as (Hwf1 & Hext). specialize (Hf s1).
    destruct (final s1) as [[] s2|e' s2|s2];
      destruct (Hsame s1 s2 Hwf1 Hext Hf); split; assumption.
Qed.

Lemma good_for_each {A} known (f : A -> M tloc) (l : list A) :
  (forall a known', good known' (f a) (fun t => [t])) ->
  good known (for_each f l) (fun types_ => types_).
Proof.
  intros Hf. revert known. induction l as [|a l IH]; intros known;
    cbn [for_each].
  - apply good_ret. intros t Ht. inversion Ht.
  - eapply good_bind; [apply Hf|]. intros t.
    eapply good_bind; [apply IH|]. intros types_. cbv beta.
    apply good_ret. set_solver.
Qed.

Lemma good_when known b m :
  good known m (fun _ => []) -> good known (when b m) (fun _ => []).
Proof.
  intros H. unfold when. destruct b; [exact H|]. apply good_ret. set_solver.
Qed.

Lemma good_raise {A} known e (locs : A -> list tloc) :
  good known (raise e) locs.
Proof.
  intros s Hwf _. unfold raise. split; [exact Hwf|apply extends_refl].
Qed.

Lemma good_combined known base sub_types :
  sub_types ⊆ known ->
  good known (APIv4.combined base sub_types) (fun t => [t]).
Proof.
  intros Hin. unfold APIv4.combined.
  eapply (good_bind _ _ _ (fun t => [t])); [apply good_new_type; set_solver|].
  intros b. apply good_new_type. cbn [children_of]. set_solver.
Qed.

Lemma dict_set_values (struct : pydict tloc) prop type_ :
  map snd (dict_set prop type_ struct) ⊆ type_ :: map snd struct.
Proof.
  induction struct as [|[k v] struct IH]; cbn [dict_set map snd].
  - set_solver.
  - destruct (String.eqb prop k); cbn [map snd]; set_solver.
Qed.

Create HintDb goodness discriminated.

(** The candidates for what a step returns: a Type object, a list of them,
    an optional one, the values of a [struct], or nothing of the store. *)
Ltac good_prim :=
  first
    [ apply good_leaves_types; solve [leaves]
    | apply good_raise
    | apply good_set_comments
    | apply good_new_type; cbn [children_of]; set_solver
    | apply good_ref_type_lookup
    | apply good_ref_type_store; set_solver
    | apply good_ret; cbv beta; set_solver
    | apply good_combined; set_solver
    | match goal with
      | H : context [good] |- good _ _ _ => solve [apply H; set_solver]
      end
    | solve [auto with goodness] ].

Ltac good_solve :=
  lazymatch goal with
  | |- good _ (bind _ _) _ =>
      first
        [ eapply (good_bind _ _ _ (fun t : tloc => [t]));
            [solve [good_solve]|intros ?]
        | eapply (good_bind _ _ _ (fun l : list tloc => l));
            [solve [good_solve]|intros ?]
        | eapply (good_bind _ _ _
                    (fun o : option tloc =>
                       match o with Some t => [t] | None => [] end));
            [solve [good_solve]|intros ?]
        | eapply (good_bind _ _ _ (fun d : pydict tloc => map snd d));
            [solve [good_solve]|intros ?]
        | eapply (good_bind _ _ _ (fun _ => []));
            [solve [good_solve]|intros ?] ];
      good_solve
  | |- good _ (match ?x with _ => _ end) _ => destruct x; good_solve
  | |- good _ (if ?x then _ else _) _ => destruct x; good_solve
  | |- good _ (let '(_, _) := ?x in _) _ => destruct x; good_solve
  | |- good _ (try_finally _ _) _ =>
      apply good_try_finally; [good_solve|solve [leaves]]
  | |- good _ (when _ _) _ => apply good_when; good_solve
  | |- _ => good_prim
  end.

Section Good.
Variable unidecode : string -> string.
Variable float_str : spec_float -> string.
Variable self : api.
Variable rec : json -> string -> bool -> M tloc.
Hypothesis Hrec : forall x n b known, good known (rec x n b) (fun t => [t]).

Lemma good_dict_of known value :
  (forall known', known ⊆ known' -> good known' value (fun t => [t])) ->
  good known (APIv4.dict_of value) (fun t => [t]).
Proof.
  intros H. unfold APIv4.dict_of.
  eapply (good_bind _ _ _ (fun t => [t])); [good_solve|]. intros b.
  eapply (good_bind _ _ _ (fun t => [t])); [good_solve|]. intros k.
  eapply (good_bind _ _ _ (fun t => [t])); [apply H; set_solver|]. intros v.
  good_solve.
Qed.

Lemma good_const known schema name :
  good known (APIv4.const schema name) (fun t => [t]).
Proof. unfold APIv4.const. good_solve. Qed.

Lemma good_enum known schema name :
  good known (APIv4.enum unidecode float_str schema name) (fun t => [t]).
Proof. unfold APIv4.enum. good_solve. Qed.
#[local] Hint Resolve good_const good_enum : goodness.

Lemma good_boolean known schema name :
  good known (APIv4.boolean schema name) (fun t => [t]).
Proof. unfold APIv4.boolean. good_solve. Qed.

Lemma good_string known schema name :
  good known (APIv4.string schema name) (fun t => [t]).
Proof. unfold APIv4.string. good_solve. Qed.

Lemma good_number known schema name :
  good known (APIv4.number schema name) (fun t => [t]).
Proof. unfold APIv4.number. good_solve. Qed.

Lemma good_integer known schema name :
  good known (APIv4.integer schema name) (fun t => [t]).
Proof. unfold APIv4.integer. good_solve. Qed.

Lemma good_null known schema name :
  good known (APIv4.null schema name) (fun t => [t]).
Proof. unfold APIv4.null. good_solve. Qed.

Lemma good_default known schema name :
  good known (APIv4.default schema name) (fun t => [t]).
Proof. unfold APIv4.default. good_solve. Qed.

Lemma good_add_required known type_ prop required :
  type_ ∈ known ->
  good known (APIv4.add_required type_ prop required) (fun t => [t]).
Proof. intros Hin. unfold APIv4.add_required. good_solve. Qed.

Lemma good_struct_items known properties size remaining name required struct :
  map snd struct ⊆ known ->
  good known
       (APIv4.struct_items rec properties size remaining name required struct)
       (fun d => map snd d).
Proof.
  revert known struct.
  induction remaining as [|remaining IH]; intros known struct Hin;
    cbn [APIv4.struct_items].
  - good_solve.
  - eapply (good_bind _ _ _ (fun _ => [])); [good_solve|]. intros items.
    destruct (negb _); [good_solve|].
    destruct (items !! _) as [[prop subschema]|]; [|good_solve].
    eapply (good_bind _ _ _ (fun t => [t])); [good_solve|]. intros type_.
    eapply (good_bind _ _ _ (fun t => [t]));
      [apply good_add_required; set_solver|].
    intros type_'. apply IH.
    pose proof (dict_set_values struct prop type_'). set_solver.
Qed.

#[local] Hint Resolve good_boolean good_string good_number good_integer
  good_null good_default : goodness.

Lemma good_object known schema name :
  good known (APIv4.object unidecode float_str self rec schema name)
       (fun t => [t]).
Proof.
  unfold APIv4.object.
  eapply (good_bind _ _ _ (fun _ => [])); [good_solve|]. intros d.
  eapply (good_bind _ _ _ (fun _ => [])); [good_solve|]. intros name'.
  eapply (good_bind _ _ _ (fun o : option tloc =>
                             match o with Some t => [t] | None => [] end)).
  { destruct (get_or_None "additionalProperties" d) as [| [] | | | | |];
      try (apply good_ret; set_solver).
    - destruct (additional_properties self); [apply good_ret; set_solver|].
      eapply (good_bind _ _ _ (fun t => [t]));
        [apply good_dict_of; intros; good_solve|].
      intros t. apply good_ret. set_solver.
    - eapply (good_bind _ _ _ (fun t => [t])); [good_solve|]. intros sub.
      eapply (good_bind _ _ _ (fun t => [t]));
        [apply good_dict_of; intros; apply good_ret; set_solver|].
      intros t. apply good_ret. set_solver. }
  intros std_dict.
  eapply (good_bind _ _ _ (fun _ => [])); [good_solve|]. intros d'.
  eapply (good_bind _ _ _ (fun _ => [])); [good_solve|]. intros name''.
  eapply (good_bind _ _ _ (fun _ => [])); [good_solve|]. intros [|].
  - destruct (get_or_None "properties" d'); try good_solve.
    eapply (good_bind _ _ _ (fun _ => [])); [good_solve|]. intros required.
    eapply (good_bind _ _ _ (fun _ => [])); [good_solve|]. intros items.
    eapply (good_bind _ _ _ (fun d => map snd d));
      [apply good_struct_items; set_solver|].
    intros struct.
    eapply (good_bind _ _ _ (fun _ => [])); [good_solve|]. intros d''.
    eapply (good_bind _ _ _ (fun _ => []));
      [destruct std_dict; good_solve|].
    intros descriptions.
    eapply (good_bind _ _ _ (fun t => [t]));
      [apply good_new_type; cbn [children_of]; set_solver|].
    intros type_. destruct std_dict as [std_dict|]; good_solve.
  - destruct std_dict as [std_dict|]; [good_solve|].
    apply good_dict_of. intros. good_solve.
Qed.

Lemma good_array known schema name :
  good known (APIv4.array rec schema name) (fun t => [t]).
Proof.
  unfold APIv4.array.
  eapply (good_bind _ _ _ (fun _ => [])); [good_solve|]. intros d.
  destruct (get_or_None "items" d) as [| [] | | | | |]; try good_solve.
  eapply (good_bind _ _ _ (fun l => l));
    [apply good_for_each; intros; apply Hrec|].
  intros inner. good_solve.
Qed.

Lemma good_enumerate_types known prefix index subschema :
  good known (APIv4.enumerate_types rec prefix index subschema) (fun l => l).
Proof.
  revert known index.
  induction subschema as [|subs rest IH]; intros known index;
    cbn [APIv4.enumerate_types]; [good_solve|].
  eapply (good_bind _ _ _ (fun t => [t])); [good_solve|]. intros type_.
  eapply (good_bind _ _ _ (fun l => l)); [apply IH|]. intros types_.
  good_solve.
Qed.

#[local] Hint Resolve good_enumerate_types : goodness.

Lemma good_all_of known schema subschema name :
  good known (APIv4.all_of rec schema subschema name) (fun t => [t]).
Proof. unfold APIv4.all_of. good_solve. Qed.

Lemma good_any_of known schema subschema name :
  good known (APIv4.any_of rec schema subschema name) (fun t => [t]).
Proof. unfold APIv4.any_of. good_solve. Qed.

#[local] Hint Resolve good_object good_array good_all_of good_any_of
  : goodness.

Lemma good_ref known schema name :
  good known (APIv4.ref unidecode float_str self rec schema name)
       (fun t => [t]).
Proof.
  unfold APIv4.ref.
  eapply (good_bind _ _ _ (fun _ => [])); [good_solve|]. intros d.
  destruct (dict_get "$ref" d) as [ref_|]; [|good_solve].
  eapply (good_bind _ _ _ (fun _ => [])); [good_solve|]. intros ref'.
  eapply (good_bind _ _ _ (fun _ => [])); [good_solve|]. intros copy.
  destruct (String.eqb ref' "#"); [good_solve|].
  eapply (good_bind _ _ _ (fun o : option tloc =>
                             match o with Some t => [t] | None => [] end));
    [good_solve|].
  intros [cached|]; [good_solve|].
  eapply (good_bind _ _ _ (fun t => [t])).
  - destruct (resolver_has_resolve self); [good_solve|].
    unfold resolving. good_solve.
  - intros type_. good_solve.
Qed.

#[local] Hint Resolve good_ref : goodness.

Lemma good_call known handler schema name :
  good known (APIv4.call unidecode float_str self rec handler schema name)
       (fun t => [t]).
Proof. unfold APIv4.call. destruct handler; good_solve. Qed.

#[local] Hint Resolve good_call : goodness.

Lemma good__get_type known schema schema_type name :
  good known
       (APIv4._get_type unidecode float_str self rec schema schema_type name)
       (fun t => [t]).
Proof. unfold APIv4._get_type. good_solve. Qed.

#[local] Hint Resolve good__get_type : goodness.

Lemma leaves_types__resolve_ref schema :
  leaves_types (APIv4._resolve_ref self schema).
Proof. unfold APIv4._resolve_ref. leaves. Qed.

#[local] Hint Resolve leaves_types__resolve_ref : leaves.

Lemma good_if_then_else known schema name :
  good known (APIv4.if_then_else self rec schema name) (fun t => [t]).
Proof. unfold APIv4.if_then_else. good_solve. Qed.

Lemma good_type_list known schema_copy name schema_type :
  good known
       (APIv4.type_list unidecode float_str self rec schema_copy name
          schema_type)
       (fun l => l).
Proof.
  unfold APIv4.type_list. apply good_for_each. intros a known'. good_solve.
Qed.

#[local] Hint Resolve good_if_then_else good_type_list : goodness.

Lemma good__get_type_internal known schema name :
  good known
       (APIv4._get_type_internal unidecode float_str self rec schema name)
       (fun t => [t]).
Proof. unfold APIv4._get_type_internal. good_solve. Qed.

#[local] Hint Resolve good__get_type_internal : goodness.

Lemma good_get_type_body known schema name auto_alias :
  good known
       (APIv4.get_type_body unidecode float_str self rec schema name
          auto_alias)
       (fun t => [t]).
Proof. unfold APIv4.get_type_body. good_solve. Qed.
End Good.

Lemma good_get_type unidecode float_str self depth schema name auto_alias
    known :
  good known (APIv4.get_type unidecode float_str self depth schema name
                auto_alias) (fun t => [t]).
Proof.
  revert schema name auto_alias known.
  induction depth as [|depth IH]; intros schema name auto_alias known;
    cbn [APIv4.get_type].
  - intros s Hwf _. split; [exact Hwf|apply extends_refl].
  - apply good_get_type_body. intros x n b known'. apply IH.
Qed.

Lemma wf_fresh documents : wf (fresh documents).
Proof.
  split; cbn [fresh types ref_type].
  - intros t o H. rewrite lookup_nil in H. discriminate.
  - intros ref t H. rewrite lookup_empty in H. discriminate.
Qed.

(** X4: from a well-formed store, as a fresh engine has, a translation
    that returns, raises or is cut off leaves a well-formed store, in which
    every Type object there was is still at its place with the node it had
    (comments may have been set), and the Type a translation returns is an
    object of that store. *)
Theorem translation_keeps_store_well_formed unidecode float_str self depth
    schema name auto_alias s :
  wf s ->
  match APIv4.get_type unidecode float_str self depth schema name auto_alias s
  with
  | Ok type_ s' => wf s' /\ extends s s' /\ type_ < length (types s')
  | Raise _ s' | NoFuel s' => wf s' /\ extends s s'
  end.
Proof.
  intros Hwf.
  pose proof (good_get_type unidecode float_str self depth schema name
                auto_alias [] s Hwf (Forall_nil_2 _)) as H.
  destruct (APIv4.get_type _ _ _ _ _ _ _ s) as [t s'|e s'|s']; [|exact H..].
  destruct H as (Hwf' & Hext & Ht). split; [exact Hwf'|].
  split; [exact Hext|]. inversion Ht. assumption.
Qed.

Lemma translation_keeps_store_well_formed_witness :
  exists type_ s',
    translate 4 doc_point 0 = Ok type_ s'
    /\ wf s' /\ extends (fresh doc_point) s' /\ type_ < length (types s').
Proof.
  pose proof (translation_keeps_store_well_formed unidecode_ascii
                float_str_none (engine 0) 4 (JDict 0) "Base" true
                (fresh doc_point) (wf_fresh doc_point)) as H.
  fold (translate 4 doc_point 0) in H.
  destruct (translate 4 doc_point 0) as [type_ s'|e s'|s'] eqn:E;
    [|vm_compute in E; discriminate..].
  exists type_, s'. split; [reflexivity|exact H].
Defined.

(** ** Rendering terminates *)

Lemma name_mono float_str depth depth' types_ t r :
  name float_str depth types_ t = Some r -> depth <= depth' ->
  name float_str depth' types_ t = Some r.
Proof.
  revert depth' t r.
  induction depth as [|depth IH]; intros depth' t r H Hle; [discriminate|].
  destruct depth' as [|depth']; [lia|]. assert (depth <= depth') by lia.
  cbn [name] in *.
  destruct (types_ !! t) as [o|]; [|discriminate]. cbn in *.
  destruct (ty_node o) as [const|?|? ?|base sub_types|? ? ?|? ? ?|? ? ?];
    try exact H.
  destruct (name float_str depth types_ base) as [rb|] eqn:Eb;
    [|discriminate].
  rewrite (IH _ _ _ Eb) by assumption. cbn in *.
  destruct (mapM (name float_str depth types_) sub_types) as [rs|] eqn:Es;
    [|discriminate].
  assert (mapM (name float_str depth' types_) sub_types = Some rs) as ->;
    [|exact H].
  apply mapM_Some in Es. apply mapM_Some.
  eapply Forall2_impl; [exact Es|]. intros c rc Hc. cbv beta.
  apply IH; assumption.
Qed.

Lemma name_returns float_str s (t : tloc) :
  wf s -> t < length (types s) ->
  exists r, name float_str (S t) (types s) t = Some r.
Proof.
  intros [Hchildren _]. induction t as [t IH] using lt_wf_ind. intros Ht.
  destruct (lookup_lt_is_Some_2 _ _ Ht) as [o Ho].
  cbn [name]. change (types s !! (t : tloc) = Some o) in Ho. rewrite Ho. cbn.
  pose proof (Hchildren t o Ho) as Hc.
  assert (Hsub : forall c, c < t ->
                   exists r, name float_str t (types s) c = Some r).
  { intros c Hlt. destruct (IH c Hlt ltac:(lia)) as [r Hr].
    exists r. eapply name_mono; [exact Hr|lia]. }
  destruct (ty_node o) as [const|?|? ?|base sub_types|? ? ?|? ? ?|? ? ?];
    try (destruct const); try (eexists; reflexivity).
  cbn [children_of] in Hc. apply Forall_cons in Hc as [Hbase Hsubs].
  destruct (Hsub base Hbase) as [rb ->]. cbn.
  assert (is_Some (mapM (name float_str t (types s)) sub_types)) as [rs ->].
  { apply mapM_is_Some. eapply Forall_impl; [exact Hsubs|].
    intros c Hlt. destruct (Hsub c Hlt) as [r Hr]. exists r. exact Hr. }
  eexists. reflexivity.
Qed.

Lemma struct_lines_returns float_str depth types_ (struct : pydict tloc) :
  Forall (fun c : tloc => c < length types_
                          /\ is_Some (name float_str depth types_ c))
         (map snd struct) ->
  is_Some (struct_lines float_str depth types_ struct).
Proof.
  induction struct as [|[property_ c] struct IH]; cbn [struct_lines map snd];
    intros H.
  - eexists. reflexivity.
  - apply Forall_cons in H as [[Hlt [rc Hc]] H].
    destruct (lookup_lt_is_Some_2 _ _ Hlt) as [o Ho].
    change (types_ !! (c : tloc) = Some o) in Ho. rewrite Ho. cbn.
    rewrite Hc. cbn. destruct (IH H) as [rest ->]. eexists. reflexivity.
Qed.

Lemma definition_returns unidecode float_str s (t : tloc) :
  wf s -> t < length (types s) ->
  exists r, definition unidecode float_str (S t) (types s) t = Some r.
Proof.
  intros Hwf Ht. pose proof Hwf as [Hchildren _].
  destruct (lookup_lt_is_Some_2 _ _ Ht) as [o Ho].
  unfold definition. change (types s !! (t : tloc) = Some o) in Ho.
  rewrite Ho. cbn [mbind option_bind]. pose proof (Hchildren t o Ho) as Hc.
  assert (Hsub : forall c, c < t ->
                   c < length (types s)
                   /\ is_Some (name float_str (S t) (types s) c)).
  { intros c Hlt. split; [lia|].
    destruct (name_returns float_str s c Hwf ltac:(lia)) as [r Hr].
    exists r. eapply name_mono; [exact Hr|lia]. }
  destruct (ty_node o) as [const|?|? ?|base sub_types|? sub ?|? ? ?|? struct ?];
    try (eexists; reflexivity); cbn [children_of] in Hc.
  - apply Forall_cons in Hc as [Hlt _].
    destruct (Hsub sub Hlt) as [_ [r ->]]. eexists. reflexivity.
  - assert (is_Some (struct_lines float_str (S t) (types s) struct))
      as [lines ->].
    { apply struct_lines_returns. eapply Forall_impl; [exact Hc|].
      intros c Hlt. apply Hsub, Hlt. }
    eexists. reflexivity.
Qed.

Lemma name_extends float_str depth s s' t r :
  extends s s' ->
  name float_str depth (types s) t = Some r ->
  name float_str depth (types s') t = Some r.
Proof.
  intros Hext. revert t r.
  induction depth as [|depth IH]; intros t r H; [discriminate|].
  cbn [name] in *.
  destruct (types s !! t) as [o|] eqn:Ho; [|discriminate]. cbn in H.
  destruct (Hext t o Ho) as (o' & Ho' & Hnode).
  change (types s' !! (t : tloc) = Some o') in Ho'. rewrite Ho'. cbn.
  rewrite Hnode.
  destruct (ty_node o) as [const|?|? ?|base sub_types|? ? ?|? ? ?|? ? ?];
    try exact H.
  destruct (name float_str depth (types s) base) as [rb|] eqn:Eb;
    [|discriminate].
  rewrite (IH _ _ Eb). cbn in *.
  destruct (mapM (name float_str depth (types s)) sub_types) as [rs|] eqn:Es;
    [|discriminate].
  assert (mapM (name float_str depth (types s')) sub_types = Some rs) as ->;
    [|exact H].
  apply mapM_Some in Es. apply mapM_Some.
  eapply Forall2_impl; [exact Es|]. intros c rc Hc. apply IH, Hc.
Qed.

(** X5: after a translation that returns, run from a well-formed store,
    the Type returned is an object of the store, and rendering any object
    of the store comes to an end: [name] and [definition] of the object at
    [t] finish, by returning or by raising, within [t + 1] nested combined
    types.  The Type objects form no cycle on which rendering could go
    round. *)
Theorem translated_types_render unidecode float_str self depth schema name_
    auto_alias s type_ s' :
  wf s ->
  APIv4.get_type unidecode float_str self depth schema name_ auto_alias s
  = Ok type_ s' ->
  type_ < length (types s')
  /\ forall t : tloc,
       t < length (types s') ->
       is_Some (name float_str (S t) (types s') t)
       /\ is_Some (definition unidecode float_str (S t) (types s') t).
Proof.
  intros Hwf Hget.
  pose proof (good_get_type unidecode float_str self depth schema name_
                auto_alias [] s Hwf (Forall_nil_2 _)) as H.
  rewrite Hget in H. destruct H as (Hwf' & _ & Ht).
  split; [inversion Ht; assumption|]. intros t Hlt. split.
  - destruct (name_returns float_str s' t Hwf' Hlt) as [r Hr]. exists r.
    exact Hr.
  - destruct (definition_returns unidecode float_str s' t Hwf' Hlt)
      as [r Hr].
    exists r. exact Hr.
Qed.

Lemma translated_types_render_witness :
  exists type_ s',
    translate 4 doc_point 0 = Ok type_ s'
    /\ is_Some (name float_str_none (S type_) (types s') type_)
    /\ is_Some (definition unidecode_ascii float_str_none (S type_)
                  (types s') type_).
Proof.
  destruct (translate 4 doc_point 0) as [type_ s'|e s'|s'] eqn:E;
    [|vm_compute in E; discriminate..].
  destruct (translated_types_render unidecode_ascii float_str_none (engine 0)
              4 (JDict 0) "Base" true (fresh doc_point) type_ s'
              (wf_fresh doc_point) E) as [Hlt Hall].
  exists type_, s'. split; [reflexivity|]. exact (Hall type_ Hlt).
Defined.

(** X6: the name of a Type object is the same after any further
    translation, whether it returns, raises or is cut off. *)
Theorem translation_keeps_names unidecode float_str self depth schema name_
    auto_alias s depth' (t : tloc) r :
  wf s ->
  name float_str depth' (types s) t = Some r ->
  match APIv4.get_type unidecode float_str self depth schema name_ auto_alias s
  with
  | Ok _ s' | Raise _ s' | NoFuel s' =>
      name float_str depth' (types s') t = Some r
  end.
Proof.
  intros Hwf Hname.
  pose proof (good_get_type unidecode float_str self depth schema name_
                auto_alias [] s Hwf (Forall_nil_2 _)) as H.
  destruct (APIv4.get_type _ _ _ _ _ _ _ s) as [type_ s'|e s'|s'];
    [destruct H as (_ & Hext & _)|destruct H as (_ & Hext)..];
    eapply name_extends; eassumption.
Qed.

Lemma translation_keeps_names_witness :
  exists s,
    translate 4 doc_point 0 = Ok 4 s
    /\ name float_str_none 2 (types s) 3 = Some (Val "Union[int, float]")
    /\ match APIv4.get_type unidecode_ascii float_str_none (engine 0) 4
               (JDict 0) "Again" true s with
       | Ok _ s' | Raise _ s' | NoFuel s' =>
           name float_str_none 2 (types s') 3
           = Some (Val "Union[int, float]")
       end.
Proof.
  destruct (translate 4 doc_point 0) as [type_ s|e s|s] eqn:E;
    [|vm_compute in E; discriminate..].
  assert (Hwf : wf s).
  { pose proof (good_get_type unidecode_ascii float_str_none (engine 0) 4
                  (JDict 0) "Base" true [] (fresh doc_point)
                  (wf_fresh doc_point) (Forall_nil_2 _)) as H.
    fold (translate 4 doc_point 0) in H. rewrite E in H. apply H. }
  assert (Hname : name float_str_none 2 (types s) 3
                  = Some (Val "Union[int, float]"))
    by (vm_compute in E; injection E as _ <-; vm_compute; reflexivity).
  assert (type_ = 4) as -> by (vm_compute in E; congruence).
  exists s. split; [reflexivity|]. split; [exact Hname|].
  exact (translation_keeps_names unidecode_ascii float_str_none (engine 0) 4
           (JDict 0) "Again" true s 2 3 _ Hwf Hname).
Defined.

(** ** What a translation leaves as it was *)

Lemma dict_has_del {A} key k (d : pydict A) :
  dict_has key d = false -> dict_has key (dict_del k d) = false.
Proof.
  unfold dict_has. induction d as [|[k' v] d IH]; cbn [dict_get dict_del];
    [reflexivity|].
  destruct (String.eqb key k') eqn:E; [discriminate|]. intros H.
  destruct (String.eqb k k'); [exact H|]. cbn [dict_get]. rewrite E.
  apply IH, H.
Qed.

Lemma dict_has_set {A} key k (v : A) (d : pydict A) :
  String.eqb key k = false ->
  dict_has key d = false -> dict_has key (dict_set k v d) = false.
Proof.
  intros Hk. unfold dict_has.
  induction d as [|[k' v'] d IH]; cbn [dict_get dict_set].
  - rewrite Hk. reflexivity.
  - destruct (String.eqb key k') eqn:E; [discriminate|]. intros H.
    destruct (String.eqb k k'); cbn [dict_get]; [rewrite Hk; exact H|].
    rewrite E. apply IH, H.
Qed.

Lemma dict_has_set_any {A} key k (v : A) (d : pydict A) :
  dict_has key d = false -> dict_has key [(k, v)] = false ->
  dict_has key (dict_set k v d) = false.
Proof.
  intros Hd Hk. apply dict_has_set; [|exact Hd].
  unfold dict_has in Hk. cbn [dict_get] in Hk.
  destruct (String.eqb key k); [discriminate|reflexivity].
Qed.

Lemma dict_has_update {A} key (d other : pydict A) :
  dict_has key d = false -> dict_has key other = false ->
  dict_has key (dict_update d other) = false.
Proof.
  unfold dict_update. revert d.
  induction other as [|[k v] other IH]; intros d Hd Ho; cbn [fold_left];
    [exact Hd|].
  unfold dict_has in Ho. cbn [dict_get] in Ho.
  destruct (String.eqb key k) eqn:E; [discriminate|].
  apply IH; [|exact Ho]. cbn [fst snd]. apply dict_has_set; assumption.
Qed.

Lemma dict_has_del_all key keys (d : pydict json) :
  dict_has key d = false -> dict_has key (APIv4.dict_del_all keys d) = false.
Proof.
  unfold APIv4.dict_del_all. revert d.
  induction keys as [|k keys IH]; intros d H; cbn [fold_left]; [exact H|].
  apply IH, dict_has_del, H.
Qed.

Lemma dict_has_lookup key (h : list (pydict json)) (r : loc) :
  Forall (fun d => dict_has key d = false) h -> dict_has key (h !!! r) = false.
Proof.
  intros H. revert r.
  induction H as [|d h Hd _ IH]; intros [|r]; try reflexivity.
  - exact Hd.
  - apply IH.
Qed.

Lemma keeps_ret {A} Inv Cut (a : A) (Q : A -> Prop) :
  Q a -> keeps Inv Cut (ret a) Q.
Proof. intros H s Hs. split; assumption. Qed.

Lemma keeps_raise {A} Inv Cut e (Q : A -> Prop) : keeps Inv Cut (raise e) Q.
Proof. intros s Hs. exact Hs. Qed.

Lemma keeps_lift {A} Inv Cut (r : pyres A) :
  keeps Inv Cut (lift r) (fun a => r = Val a).
Proof.
  destruct r; [apply keeps_ret; reflexivity|apply keeps_raise].
Qed.

Lemma keeps_bind {A B} Inv Cut (m : M A) (f : A -> M B) Q Q' :
  keeps Inv Cut m Q -> (forall a, Q a -> keeps Inv Cut (f a) Q') ->
  keeps Inv Cut (bind m f) Q'.
Proof.
  intros Hm Hf s Hs. unfold bind. specialize (Hm s Hs).
  destruct (m s) as [a s1|e s1|s1]; [|exact Hm..].
  destruct Hm as [Hs1 Ha]. apply (Hf a Ha s1 Hs1).
Qed.

Lemma keeps_weaken {A} Inv Cut (m : M A) (Q Q' : A -> Prop) :
  keeps Inv Cut m Q -> (forall a, Q a -> Q' a) -> keeps Inv Cut m Q'.
Proof.
  intros Hm HQ s Hs. specialize (Hm s Hs).
  destruct (m s); [|exact Hm..]. destruct Hm. split; auto.
Qed.

Lemma keeps_for_each {A B} Inv Cut (f : A -> M B) (l : list A) :
  (forall a, keeps Inv Cut (f a) (fun _ => True)) ->
  keeps Inv Cut (for_each f l) (fun _ => True).
Proof.
  intros Hf. induction l as [|a l IH]; cbn [for_each].
  - apply keeps_ret. exact I.
  - eapply keeps_bind; [apply Hf|]. intros b _.
    eapply keeps_bind; [apply IH|]. intros bs _. apply keeps_ret.
    exact I.
Qed.

Lemma leaves_documents_bind {A B} (m : M A) (f : A -> M B) :
  leaves_documents m -> (forall a, leaves_documents (f a)) ->
  leaves_documents (bind m f).
Proof.
  intros Hm Hf s. unfold bind. specialize (Hm s).
  destruct (m s) as [a s1|e s1|s1]; [|exact Hm..].
  specialize (Hf a s1). destruct Hm as [Hh Hs].
  destruct (f a s1); rewrite <- Hh, <- Hs; exact Hf.
Qed.

Lemma leaves_documents_ret {A} (a : A) : leaves_documents (ret a).
Proof. intros s. split; reflexivity. Qed.

Lemma leaves_documents_raise {A} e : leaves_documents (@raise A e).
Proof. intros s. split; reflexivity. Qed.

Lemma leaves_documents_lift {A} (r : pyres A) : leaves_documents (lift r).
Proof.
  destruct r; [apply leaves_documents_ret|apply leaves_documents_raise].
Qed.

Lemma leaves_documents_read r : leaves_documents (read r).
Proof. intros s. split; reflexivity. Qed.

Lemma leaves_documents_new_type n : leaves_documents (new_type n).
Proof. intros s. split; reflexivity. Qed.

Lemma leaves_documents_set_comments t c : leaves_documents (set_comments t c).
Proof. intros s. split; reflexivity. Qed.

Lemma leaves_documents_type_at t : leaves_documents (type_at t).
Proof. intros s. split; reflexivity. Qed.

Lemma leaves_documents_ref_type_lookup ref :
  leaves_documents (ref_type_lookup ref).
Proof. intros s. split; reflexivity. Qed.

Lemma leaves_documents_ref_type_store ref t :
  leaves_documents (ref_type_store ref t).
Proof. intros s. split; reflexivity. Qed.

Lemma leaves_documents_resolve self ref : leaves_documents (resolve self ref).
Proof.
  intros s. unfold resolve.
  destruct (resolver_lookup self (scopes s) (heap s) ref); split; reflexivity.
Qed.

Create HintDb documents discriminated.
#[export] Hint Resolve leaves_documents_ret leaves_documents_raise
  leaves_documents_lift leaves_documents_read leaves_documents_new_type
  leaves_documents_set_comments leaves_documents_type_at
  leaves_documents_ref_type_lookup leaves_documents_ref_type_store
  leaves_documents_resolve : documents.

Ltac documents_step :=
  first
    [ solve [auto with documents]
    | apply leaves_documents_bind; [ | intros ? ]
    | match goal with
      | |- leaves_documents (match ?x with _ => _ end) => destruct x
      | |- leaves_documents (if ?x then _ else _) => destruct x
      end ].
Ltac documents := repeat documents_step.

Lemma leaves_documents_when b m :
  leaves_documents m -> leaves_documents (when b m).
Proof. intros H. unfold when. destruct b; auto with documents. Qed.

Lemma leaves_documents_truthy value : leaves_documents (truthy value).
Proof. unfold truthy. documents. Qed.

Lemma leaves_documents_required_set d : leaves_documents (required_set d).
Proof. unfold required_set. documents. Qed.

Lemma leaves_documents_comments t : leaves_documents (comments t).
Proof. unfold comments. documents. Qed.

Lemma leaves_documents_combined base sub_types :
  leaves_documents (APIv4.combined base sub_types).
Proof. unfold APIv4.combined. documents. Qed.

Lemma leaves_documents_add_required type_ prop required :
  leaves_documents (APIv4.add_required type_ prop required).
Proof.
  unfold APIv4.add_required. documents; auto using leaves_documents_comments.
Qed.

#[export] Hint Resolve leaves_documents_when leaves_documents_truthy
  leaves_documents_required_set leaves_documents_comments
  leaves_documents_combined leaves_documents_add_required : documents.

Lemma leaves_documents_const schema name :
  leaves_documents (APIv4.const schema name).
Proof. unfold APIv4.const. documents. Qed.

Lemma leaves_documents_enum unidecode float_str schema name :
  leaves_documents (APIv4.enum unidecode float_str schema name).
Proof. unfold APIv4.enum. documents. Qed.

Lemma leaves_documents_default schema name :
  leaves_documents (APIv4.default schema name).
Proof. unfold APIv4.default. documents. Qed.

#[export] Hint Resolve leaves_documents_const leaves_documents_enum
  leaves_documents_default : documents.

Create HintDb keeping discriminated.

Section Keeping.
Variables Inv Cut : state -> Prop.
Variable Pd : pydict json -> Prop.
Hypothesis Hdep :
  forall s s', heap s' = heap s -> scopes s' = scopes s -> Inv s -> Inv s'.
Hypothesis Hcut :
  forall s s', heap s' = heap s -> scopes s' = scopes s -> Inv s -> Cut s'.
Hypothesis Hread : forall s r, Inv s -> Pd (heap s !!! r).

Lemma keeps_leaves {A} (m : M A) :
  leaves_documents m -> keeps Inv Cut m (fun _ => True).
Proof.
  intros Hm s Hs. specialize (Hm s).
  destruct (m s) as [a s'|e s'|s']; destruct Hm as [Hh Hsc].
  - split; [eapply Hdep; eassumption|exact I].
  - eapply Hdep; eassumption.
  - eapply Hcut; eassumption.
Qed.

Lemma keeps_read r : keeps Inv Cut (read r) Pd.
Proof. intros s Hs. unfold read. split; [exact Hs|apply Hread, Hs]. Qed.
End Keeping.

(** Steps of a proof that a computation keeps an invariant: a bind whose
    first computation is solved, with what is known of its value; a test. *)
Ltac keeps_head :=
  first
    [ eapply keeps_read; eassumption
    | match goal with
      | Hr : forall s r, _ -> dict_has ?k (heap s !!! r) = false |- _ =>
          apply (keeps_read _ _ (fun d => dict_has k d = false) Hr)
      end
    | apply keeps_lift
    | apply keeps_leaves; [assumption..|solve [documents]]
    | match goal with
      | H : context [keeps] |- keeps _ _ _ _ =>
          solve [apply H;
                 eauto using dict_has_del, dict_has_del_all, dict_has_set,
                   dict_has_update]
      end
    | solve [auto with keeping] ].

Ltac keeps_solve :=
  lazymatch goal with
  | |- keeps _ _ (bind _ _) _ =>
      first
        [ eapply keeps_bind; [solve [keeps_head]|intros ? ?; cbv beta in *]
        | eapply (keeps_bind _ _ _ _ (fun _ => True));
            [solve [keeps_solve]|intros ? _] ];
      keeps_solve
  | |- keeps _ _ (match ?x with _ => _ end) _ => destruct x; keeps_solve
  | |- keeps _ _ (if ?x then _ else _) _ =>
      first [ match goal with H : x = _ |- _ => rewrite H end
            | destruct x ];
      keeps_solve
  | |- keeps _ _ (let '(_, _) := ?x in _) _ => destruct x; keeps_solve
  | |- keeps _ _ (ret _) _ => apply keeps_ret; exact I
  | |- keeps _ _ (raise _) _ => apply keeps_raise
  | |- _ => eapply keeps_weaken; [solve [keeps_head]|intros; exact I]
  end.

Section KeepingEngine.
Variables Inv Cut : state -> Prop.
Variable Pd : pydict json -> Prop.
Hypothesis Hdep :
  forall s s', heap s' = heap s -> scopes s' = scopes s -> Inv s -> Inv s'.
Hypothesis Hcut :
  forall s s', heap s' = heap s -> scopes s' = scopes s -> Inv s -> Cut s'.
Hypothesis Hread : forall s r, Inv s -> Pd (heap s !!! r).
Variable unidecode : string -> string.
Variable float_str : spec_float -> string.
Variable self : api.
Variable rec : json -> string -> bool -> M tloc.
Hypothesis Hrec : forall x n b, keeps Inv Cut (rec x n b) (fun _ => True).
Hypothesis Href :
  forall schema name,
    keeps Inv Cut (APIv4.ref unidecode float_str self rec schema name)
          (fun _ => True).

Lemma keeps_struct_items properties size remaining name required struct :
  keeps Inv Cut
        (APIv4.struct_items rec properties size remaining name required struct)
        (fun _ => True).
Proof.
  revert struct. induction remaining as [|remaining IH]; intros struct;
    cbn [APIv4.struct_items]; keeps_solve.
Qed.

Lemma keeps_dict_of value :
  keeps Inv Cut value (fun _ => True) ->
  keeps Inv Cut (APIv4.dict_of value) (fun _ => True).
Proof. intros H. unfold APIv4.dict_of. keeps_solve. Qed.

Lemma keeps_object schema name :
  keeps Inv Cut (APIv4.object unidecode float_str self rec schema name)
        (fun _ => True).
Proof.
  pose proof keeps_struct_items. pose proof keeps_dict_of.
  unfold APIv4.object. keeps_solve.
Qed.

Lemma keeps_array schema name :
  keeps Inv Cut (APIv4.array rec schema name) (fun _ => True).
Proof.
  unfold APIv4.array.
  eapply keeps_bind; [eapply keeps_read; eassumption|]. intros d Hd.
  destruct (get_or_None "items" d) as [| [] | | | | |]; try keeps_solve.
  eapply (keeps_bind _ _ _ _ (fun _ => True));
    [apply keeps_for_each; intros; apply Hrec|].
  intros inner _. keeps_solve.
Qed.

Lemma keeps_enumerate_types prefix index subschema :
  keeps Inv Cut (APIv4.enumerate_types rec prefix index subschema)
        (fun _ => True).
Proof.
  revert index. induction subschema as [|subs rest IH]; intros index;
    cbn [APIv4.enumerate_types]; keeps_solve.
Qed.

Lemma keeps_all_of schema subschema name :
  keeps Inv Cut (APIv4.all_of rec schema subschema name) (fun _ => True).
Proof.
  pose proof keeps_enumerate_types. unfold APIv4.all_of. keeps_solve.
Qed.

Lemma keeps_any_of schema subschema name :
  keeps Inv Cut (APIv4.any_of rec schema subschema name) (fun _ => True).
Proof.
  pose proof keeps_enumerate_types. unfold APIv4.any_of. keeps_solve.
Qed.

Lemma keeps_call handler schema name :
  keeps Inv Cut (APIv4.call unidecode float_str self rec handler schema name)
        (fun _ => True).
Proof.
  pose proof keeps_object. pose proof keeps_array.
  unfold APIv4.call.
  destruct handler; try keeps_solve;
    unfold APIv4.const, APIv4.enum, APIv4.boolean, APIv4.string,
      APIv4.number, APIv4.integer, APIv4.null, APIv4.default;
    keeps_solve.
Qed.

Lemma keeps__get_type schema schema_type name :
  keeps Inv Cut
        (APIv4._get_type unidecode float_str self rec schema schema_type name)
        (fun _ => True).
Proof. pose proof keeps_call. unfold APIv4._get_type. keeps_solve. Qed.

Lemma keeps_type_list schema_copy name schema_type :
  keeps Inv Cut
        (APIv4.type_list unidecode float_str self rec schema_copy name
           schema_type)
        (fun _ => True).
Proof.
  pose proof keeps__get_type. unfold APIv4.type_list.
  apply keeps_for_each. intros a. keeps_solve.
Qed.

Lemma keeps_get_type_body schema name auto_alias :
  (forall r name',
     keeps Inv Cut
           (APIv4._get_type_internal unidecode float_str self rec r name')
           (fun _ => True)) ->
  keeps Inv Cut
        (APIv4.get_type_body unidecode float_str self rec schema name
           auto_alias)
        (fun _ => True).
Proof. intros H. unfold APIv4.get_type_body. keeps_solve. Qed.
End KeepingEngine.

(** ** Documents without a conditional are never written to *)

Lemma keeps_try_finally {A} Inv Cut (body : M A) (final : M unit) Q :
  keeps Inv Cut body Q -> keeps Inv Cut final (fun _ => True) ->
  keeps Inv Cut (try_finally body final) Q.
Proof.
  intros Hb Hf s Hs. unfold try_finally. specialize (Hb s Hs).
  destruct (body s) as [a s1|e s1|s1]; [| |exact Hb].
  - destruct Hb as [Hs1 Ha]. specialize (Hf s1 Hs1).
    destruct (final s1) as [[] s2|e s2|s2]; [|exact Hf..].
    split; [apply Hf|exact Ha].
  - specialize (Hf s1 Hb).
    destruct (final s1) as [[] s2|e' s2|s2]; [apply Hf|exact Hf..].
Qed.

Section Frame.
Variable key : string.
Variable n : nat.
Variable documents : list (pydict json).

Lemma untouched_dep s s' :
  heap s' = heap s -> scopes s' = scopes s ->
  untouched key n documents s -> untouched key n documents s'.
Proof. unfold untouched. intros -> _ H. exact H. Qed.

Lemma untouched_read s r :
  untouched key n documents s -> dict_has key (heap s !!! r) = false.
Proof. intros (_ & _ & H). apply dict_has_lookup, H. Qed.

Lemma untouched_new_dict d :
  dict_has key d = false ->
  keeps (untouched key n documents) (untouched key n documents) (new_dict d)
        (fun r => n <= r).
Proof.
  intros Hd s (Htake & Hlen & Hall). unfold new_dict, untouched.
  cbn [heap]. split; [|exact Hlen]. split; [|split].
  - rewrite take_app_le by exact Hlen. exact Htake.
  - rewrite length_app. lia.
  - apply Forall_app. split; [exact Hall|]. repeat constructor. exact Hd.
Qed.

Lemma untouched_write r d :
  n <= r -> dict_has key d = false ->
  keeps (untouched key n documents) (untouched key n documents) (write r d)
        (fun _ => True).
Proof.
  intros Hr Hd s (Htake & Hlen & Hall). unfold write, untouched.
  cbn [heap]. split; [|exact I]. split; [|split].
  - rewrite take_insert_ge by exact Hr. exact Htake.
  - rewrite length_insert. exact Hlen.
  - apply Forall_insert; assumption.
Qed.

Lemma untouched_scope_free {A} (m : M A) :
  (forall s, match m s with
             | Ok _ s' | Raise _ s' | NoFuel s' => heap s' = heap s
             end) ->
  keeps (untouched key n documents) (untouched key n documents) m
        (fun _ => True).
Proof.
  intros Hm s Hs. specialize (Hm s). unfold untouched in *.
  destruct (m s); rewrite Hm; [split; [exact Hs|exact I]|exact Hs..].
Qed.

Lemma untouched_push_scope scope :
  keeps (untouched key n documents) (untouched key n documents)
        (push_scope scope) (fun _ => True).
Proof. apply untouched_scope_free. intros s. reflexivity. Qed.

Lemma untouched_pop_scope :
  keeps (untouched key n documents) (untouched key n documents) pop_scope
        (fun _ => True).
Proof.
  apply untouched_scope_free. intros s. unfold pop_scope.
  destruct (scopes s); reflexivity.
Qed.

Lemma untouched_update_from target other :
  n <= target ->
  keeps (untouched key n documents) (untouched key n documents)
        (update_from target other) (fun _ => True).
Proof.
  intros Ht. unfold update_from.
  destruct other; try apply keeps_raise.
  eapply keeps_bind;
    [apply (keeps_read _ _ (fun d => dict_has key d = false) untouched_read)|].
  intros d Hd.
  eapply keeps_bind;
    [apply (keeps_read _ _ (fun d => dict_has key d = false) untouched_read)|].
  intros d' Hd'.
  apply untouched_write; [exact Ht|]. apply dict_has_update; assumption.
Qed.
End Frame.

Section FrameEngine.
Variable n : nat.
Variable documents : list (pydict json).
Variable unidecode : string -> string.
Variable float_str : spec_float -> string.
Variable self : api.
Variable rec : json -> string -> bool -> M tloc.

Let U := untouched "if" n documents.
Let no_if (d : pydict json) : Prop := dict_has "if" d = false.

Hypothesis Hrec : forall x name b, keeps U U (rec x name b) (fun _ => True).

Lemma frame_dep s s' :
  heap s' = heap s -> scopes s' = scopes s -> U s -> U s'.
Proof. apply untouched_dep. Qed.

Lemma frame_read s r : U s -> no_if (heap s !!! r).
Proof. apply untouched_read. Qed.

Lemma frame_ref schema name :
  keeps U U (APIv4.ref unidecode float_str self rec schema name)
        (fun _ => True).
Proof.
  pose proof frame_dep as Hdep. pose proof frame_read as Hread.
  assert (Hobject : forall schema name,
            keeps U U (APIv4.object unidecode float_str self rec schema name)
                  (fun _ => True))
    by (intros; eapply keeps_object; eauto).
  unfold APIv4.ref.
  eapply keeps_bind; [eapply keeps_read; eassumption|]. intros d Hd.
  destruct (dict_get "$ref" d) as [ref_|]; [|apply keeps_raise].
  eapply keeps_bind; [apply keeps_lift|]. intros ref' _.
  eapply keeps_bind; [apply untouched_new_dict, dict_has_del, Hd|].
  intros copy Hcopy.
  destruct (String.eqb ref' "#").
  - eapply keeps_bind; [apply untouched_new_dict; reflexivity|].
    intros empty _. keeps_solve.
  - eapply (keeps_bind _ _ _ _ (fun _ => True)); [keeps_solve|].
    intros [cached|] _; [keeps_solve|].
    eapply (keeps_bind _ _ _ _ (fun _ => True)); [|intros type_ _; keeps_solve].
    assert (Hblock : forall scope resolved name',
              keeps U U
                (push_scope scope ;;;
                 try_finally
                   (update_from copy resolved ;;;
                    rec (JDict copy) name' true) pop_scope)
                (fun _ => True)).
    { intros scope resolved name'.
      eapply keeps_bind; [apply untouched_push_scope|]. intros _ _.
      apply keeps_try_finally; [|apply untouched_pop_scope].
      eapply keeps_bind; [apply untouched_update_from, Hcopy|].
      intros _ _. apply Hrec. }
    destruct (resolver_has_resolve self).
    + eapply (keeps_bind _ _ _ _ (fun _ => True)); [keeps_solve|].
      intros [scope resolved] _. apply Hblock.
    + unfold resolving.
      eapply (keeps_bind _ _ _ _ (fun _ => True)); [keeps_solve|].
      intros [scope resolved] _. apply Hblock.
Qed.

Lemma frame__get_type_internal schema name :
  keeps U U
        (APIv4._get_type_internal unidecode float_str self rec schema name)
        (fun _ => True).
Proof.
  pose proof frame_dep as Hdep. pose proof frame_read as Hread.
  pose proof frame_ref as Href.
  assert (H_get_type : forall schema schema_type name,
            keeps U U
                  (APIv4._get_type unidecode float_str self rec schema
                     schema_type name) (fun _ => True))
    by (intros; eapply keeps__get_type; eauto).
  assert (Htype_list : forall schema_copy name schema_type,
            keeps U U
                  (APIv4.type_list unidecode float_str self rec schema_copy
                     name schema_type) (fun _ => True))
    by (intros; eapply keeps_type_list; eauto).
  assert (Hall_of : forall schema subschema name,
            keeps U U (APIv4.all_of rec schema subschema name)
                  (fun _ => True))
    by (intros; eapply keeps_all_of; eauto).
  assert (Hany_of : forall schema subschema name,
            keeps U U (APIv4.any_of rec schema subschema name)
                  (fun _ => True))
    by (intros; eapply keeps_any_of; eauto).
  unfold APIv4._get_type_internal.
  eapply keeps_bind; [eapply keeps_read; eassumption|]. intros d Hd.
  eapply keeps_bind; [apply keeps_lift|]. intros scope _.
  eapply (keeps_bind _ _ _ _ (fun _ => True)).
  { unfold when. destruct (nonempty scope);
      [apply untouched_push_scope|apply keeps_ret; exact I]. }
  intros _ _.
  eapply keeps_bind; [apply keeps_lift|]. intros name' _.
  unfold no_if in Hd. rewrite Hd.
  assert (Hpop : keeps U U (when (nonempty scope) pop_scope) (fun _ => True)).
  { unfold when. destruct (nonempty scope);
      [apply untouched_pop_scope|apply keeps_ret; exact I]. }
  destruct (dict_has "$ref" d); [apply Href|].
  destruct (dict_has "const" d); [keeps_solve|].
  destruct (get_or_None "type" d); try keeps_solve.
  eapply keeps_bind; [apply untouched_new_dict, dict_has_del, Hd|].
  intros copy _. keeps_solve.
Qed.
End FrameEngine.

Lemma frame_get_type n documents unidecode float_str self depth schema name
    auto_alias :
  keeps (untouched "if" n documents) (untouched "if" n documents)
        (APIv4.get_type unidecode float_str self depth schema name auto_alias)
        (fun _ => True).
Proof.
  revert schema name auto_alias.
  induction depth as [|depth IH]; intros schema name auto_alias;
    cbn [APIv4.get_type].
  - intros s Hs. exact Hs.
  - eapply (keeps_get_type_body _ _ (fun d => dict_has "if" d = false)).
    + apply untouched_dep.
    + apply untouched_dep.
    + apply untouched_read.
    + intros r name'. apply frame__get_type_internal. exact IH.
Qed.

(** X7: when no dictionary of the store has the key [if], a translation
    never changes a dictionary it was given: however it ends, the store it
    leaves starts with the dictionaries it started from, and still none of
    its dictionaries has the key [if]. *)
Theorem translation_without_if_keeps_documents unidecode float_str self depth
    schema name auto_alias s :
  Forall (fun d => dict_has "if" d = false) (heap s) ->
  match APIv4.get_type unidecode float_str self depth schema name auto_alias s
  with
  | Ok _ s' | Raise _ s' | NoFuel s' =>
      heap s `prefix_of` heap s'
      /\ Forall (fun d => dict_has "if" d = false) (heap s')
  end.
Proof.
  intros Hno.
  pose proof (frame_get_type (length (heap s)) (heap s) unidecode float_str
                self depth schema name auto_alias s) as H.
  assert (Hs : untouched "if" (length (heap s)) (heap s) s)
    by (split; [apply firstn_all|split; [lia|exact Hno]]).
  specialize (H Hs).
  assert (Hprefix : forall s', untouched "if" (length (heap s)) (heap s) s' ->
            heap s `prefix_of` heap s'
            /\ Forall (fun d => dict_has "if" d = false) (heap s')).
  { intros s' (Htake & _ & Hall). split; [|exact Hall].
    exists (drop (length (heap s)) (heap s')).
    transitivity (take (length (heap s)) (heap s')
                  ++ drop (length (heap s)) (heap s'));
      [symmetry; apply take_drop|f_equal; exact Htake]. }
  destruct (APIv4.get_type _ _ _ _ _ _ _ s) as [t s'|e s'|s'];
    [apply Hprefix, H|apply Hprefix, H..].
Qed.

Lemma translation_without_if_keeps_documents_witness :
  exists type_ s',
    translate 4 doc_point 0 = Ok type_ s'
    /\ doc_point `prefix_of` heap s'.
Proof.
  assert (Hno : Forall (fun d => dict_has "if" d = false)
                       (heap (fresh doc_point)))
    by (repeat constructor).
  pose proof (translation_without_if_keeps_documents unidecode_ascii
                float_str_none (engine 0) 4 (JDict 0) "Base" true
                (fresh doc_point) Hno) as H.
  fold (translate 4 doc_point 0) in H.
  destruct (translate 4 doc_point 0) as [type_ s'|e s'|s'] eqn:E;
    [|vm_compute in E; discriminate..].
  exists type_, s'. split; [reflexivity|apply H].
Defined.

(** ** Without an [$id] the scope stack is restored *)

Section Scope.
Variable key : string.

Lemma scoped_dep stack s s' :
  heap s' = heap s -> scopes s' = scopes s ->
  scoped key stack s -> scoped key stack s'.
Proof. unfold scoped. intros -> ->. exact id. Qed.

Lemma scoped_read stack s r :
  scoped key stack s -> dict_has key (heap s !!! r) = false.
Proof. intros [_ H]. apply dict_has_lookup, H. Qed.

Lemma scoped_new_dict stack d :
  dict_has key d = false ->
  keeps (scoped key stack) (fun _ => True) (new_dict d) (fun _ => True).
Proof.
  intros Hd s [Hsc Hall]. unfold new_dict, scoped. cbn [heap scopes].
  split; [|exact I]. split; [exact Hsc|].
  apply Forall_app. split; [exact Hall|]. repeat constructor. exact Hd.
Qed.

Lemma scoped_write stack r d :
  dict_has key d = false ->
  keeps (scoped key stack) (fun _ => True) (write r d) (fun _ => True).
Proof.
  intros Hd s [Hsc Hall]. unfold write, scoped. cbn [heap scopes].
  split; [|exact I]. split; [exact Hsc|]. apply Forall_insert; assumption.
Qed.

Lemma scoped_update_from stack target other :
  keeps (scoped key stack) (fun _ => True) (update_from target other)
        (fun _ => True).
Proof.
  unfold update_from. destruct other; try apply keeps_raise.
  eapply keeps_bind;
    [apply (keeps_read _ _ (fun d => dict_has key d = false)
              (scoped_read stack))|].
  intros d Hd.
  eapply keeps_bind;
    [apply (keeps_read _ _ (fun d => dict_has key d = false)
              (scoped_read stack))|].
  intros d' Hd'. apply scoped_write, dict_has_update; assumption.
Qed.

Lemma scoped_get_or_new stack schema k :
  keeps (scoped key stack) (fun _ => True) (get_or_new schema k)
        (fun _ => True).
Proof.
  unfold get_or_new.
  eapply keeps_bind;
    [apply (keeps_read _ _ (fun d => dict_has key d = false)
              (scoped_read stack))|].
  intros d Hd. destruct (dict_get k d); [apply keeps_ret; exact I|].
  eapply keeps_bind; [apply scoped_new_dict; reflexivity|].
  intros r _. apply keeps_ret. exact I.
Qed.

(** A scope that is pushed for a block and popped when the block is left. *)
Lemma scoped_block {A} stack scope (body : M A) Q :
  keeps (scoped key (scope :: stack)) (fun _ => True) body Q ->
  keeps (scoped key stack) (fun _ => True)
        (push_scope scope ;;; try_finally body pop_scope) Q.
Proof.
  intros Hbody s [Hsc Hall]. unfold bind, push_scope, try_finally.
  match goal with |- context [body ?s1] => specialize (Hbody s1) end.
  cbn [heap scopes] in Hbody.
  specialize (Hbody (conj (f_equal (cons scope) Hsc) Hall)).
  match goal with |- context [body ?s1] => destruct (body s1) as [a s2|e s2|s2]
  end; [| |exact I].
  - destruct Hbody as [[Hsc2 Hall2] Ha]. unfold pop_scope. rewrite Hsc2.
    split; [split; [reflexivity|exact Hall2]|exact Ha].
  - destruct Hbody as [Hsc2 Hall2]. unfold pop_scope. rewrite Hsc2.
    split; [reflexivity|exact Hall2].
Qed.
End Scope.

Lemma scope_of_no_id d :
  dict_has "$id" d = false -> APIv4.scope_of d = Val "".
Proof.
  unfold dict_has, APIv4.scope_of. destruct (dict_get "$id" d);
    [discriminate|reflexivity].
Qed.

Section ScopeEngine.
Variable unidecode : string -> string.
Variable float_str : spec_float -> string.
Variable self : api.
Variable rec : json -> string -> bool -> M tloc.

Let B (stack : list string) := scoped "$id" stack.
Let T (s : state) := True.
Let no_id (d : pydict json) : Prop := dict_has "$id" d = false.

Hypothesis Hrec :
  forall stack x name b, keeps (B stack) T (rec x name b) (fun _ => True).

Lemma balance_dep stack s s' :
  heap s' = heap s -> scopes s' = scopes s -> B stack s -> B stack s'.
Proof. apply scoped_dep. Qed.

Lemma balance_cut stack s s' :
  heap s' = heap s -> scopes s' = scopes s -> B stack s -> T s'.
Proof. intros. exact I. Qed.

Lemma balance_read stack s r : B stack s -> no_id (heap s !!! r).
Proof. apply scoped_read. Qed.

Lemma balance_ref stack schema name :
  keeps (B stack) T (APIv4.ref unidecode float_str self rec schema name)
        (fun _ => True).
Proof.
  pose proof (balance_dep stack) as Hdep.
  pose proof (balance_cut stack) as Hcut.
  pose proof (balance_read stack) as Hread.
  assert (Hobject : forall schema name,
            keeps (B stack) T
                  (APIv4.object unidecode float_str self rec schema name)
                  (fun _ => True))
    by (intros; eapply keeps_object; eauto).
  unfold APIv4.ref.
  eapply keeps_bind; [eapply keeps_read; eassumption|]. intros d Hd.
  destruct (dict_get "$ref" d) as [ref_|]; [|apply keeps_raise].
  eapply keeps_bind; [apply keeps_lift|]. intros ref' _.
  eapply keeps_bind; [apply scoped_new_dict, dict_has_del, Hd|].
  intros copy _.
  destruct (String.eqb ref' "#").
  - eapply keeps_bind; [apply scoped_new_dict; reflexivity|].
    intros empty _. keeps_solve.
  - eapply (keeps_bind _ _ _ _ (fun _ => True)); [keeps_solve|].
    intros [cached|] _; [keeps_solve|].
    eapply (keeps_bind _ _ _ _ (fun _ => True)); [|intros type_ _; keeps_solve].
    assert (Hblock : forall scope resolved name',
              keeps (B stack) T
                (push_scope scope ;;;
                 try_finally
                   (update_from copy resolved ;;;
                    rec (JDict copy) name' true) pop_scope)
                (fun _ => True)).
    { intros scope resolved name'. apply scoped_block.
      eapply keeps_bind; [apply scoped_update_from|].
      intros _ _. apply Hrec. }
    destruct (resolver_has_resolve self).
    + eapply (keeps_bind _ _ _ _ (fun _ => True)); [keeps_solve|].
      intros [scope resolved] _. apply Hblock.
    + unfold resolving.
      eapply (keeps_bind _ _ _ _ (fun _ => True)); [keeps_solve|].
      intros [scope resolved] _. apply Hblock.
Qed.

Lemma balance__resolve_ref stack schema :
  keeps (B stack) T (APIv4._resolve_ref self schema) (fun _ => True).
Proof.
  pose proof (balance_dep stack) as Hdep.
  pose proof (balance_cut stack) as Hcut.
  pose proof (balance_read stack) as Hread.
  unfold APIv4._resolve_ref. destruct schema; try apply keeps_raise.
  eapply keeps_bind; [eapply keeps_read; eassumption|]. intros d Hd.
  destruct (dict_get "$ref" d) as [ref_|]; [|apply keeps_ret; exact I].
  eapply keeps_bind; [apply keeps_lift|]. intros ref' _.
  eapply (keeps_bind _ _ _ _ (fun _ => True));
    [|intros _ _; apply keeps_ret; exact I].
  unfold resolving.
  eapply (keeps_bind _ _ _ _ (fun _ => True)); [keeps_solve|].
  intros [scope resolved] _. apply scoped_block, scoped_update_from.
Qed.

Lemma balance_if_then_else stack schema name :
  keeps (B stack) T (APIv4.if_then_else self rec schema name) (fun _ => True).
Proof.
  pose proof (balance_dep stack) as Hdep.
  pose proof (balance_cut stack) as Hcut.
  pose proof (scoped_read "$id" stack) as Hread.
  pose proof (scoped_new_dict "$id" stack) as Hnew.
  pose proof (scoped_write "$id" stack) as Hwrite.
  pose proof (scoped_update_from "$id" stack) as Hupdate.
  pose proof (scoped_get_or_new "$id" stack) as Hget.
  pose proof (balance__resolve_ref stack) as Hresolve.
  pose proof (Hrec stack) as Hrec'.
  unfold APIv4.if_then_else. keeps_solve.
Qed.

Lemma balance__get_type_internal stack schema name :
  keeps (B stack) T
        (APIv4._get_type_internal unidecode float_str self rec schema name)
        (fun _ => True).
Proof.
  pose proof (balance_dep stack) as Hdep.
  pose proof (balance_cut stack) as Hcut.
  pose proof (balance_read stack) as Hread.
  pose proof (Hrec stack) as Hrec'.
  pose proof (balance_ref stack) as Href.
  pose proof (balance_if_then_else stack) as Hif.
  assert (H_get_type : forall schema schema_type name,
            keeps (B stack) T
                  (APIv4._get_type unidecode float_str self rec schema
                     schema_type name) (fun _ => True))
    by (intros; eapply keeps__get_type; eauto).
  assert (Htype_list : forall schema_copy name schema_type,
            keeps (B stack) T
                  (APIv4.type_list unidecode float_str self rec schema_copy
                     name schema_type) (fun _ => True))
    by (intros; eapply keeps_type_list; eauto).
  assert (Hall_of : forall schema subschema name,
            keeps (B stack) T (APIv4.all_of rec schema subschema name)
                  (fun _ => True))
    by (intros; eapply keeps_all_of; eauto).
  assert (Hany_of : forall schema subschema name,
            keeps (B stack) T (APIv4.any_of rec schema subschema name)
                  (fun _ => True))
    by (intros; eapply keeps_any_of; eauto).
  unfold APIv4._get_type_internal.
  eapply keeps_bind; [eapply keeps_read; eassumption|].
  intros d Hd. unfold no_id in Hd.
  eapply keeps_bind; [apply keeps_lift|]. intros scope Hscope.
  rewrite (scope_of_no_id _ Hd) in Hscope. injection Hscope as <-.
  change (when (nonempty "") (push_scope "")) with (@ret unit tt).
  change (when (nonempty "") pop_scope) with (@ret unit tt).
  eapply (keeps_bind _ _ _ _ (fun _ => True)); [apply keeps_ret; exact I|].
  intros _ _.
  eapply keeps_bind; [apply keeps_lift|]. intros name' _.
  destruct (dict_has "if" d); [apply Hif|].
  destruct (dict_has "$ref" d); [apply Href|].
  destruct (dict_has "const" d); [keeps_solve|].
  pose proof (scoped_new_dict "$id" stack) as Hnew.
  destruct (get_or_None "type" d); try keeps_solve.
Qed.

Lemma balance_get_type_body stack schema name auto_alias :
  keeps (B stack) T
        (APIv4.get_type_body unidecode float_str self rec schema name
           auto_alias) (fun _ => True).
Proof.
  eapply keeps_get_type_body.
  - apply (balance_dep stack).
  - apply (balance_cut stack).
  - apply (balance_read stack).
  - apply balance__get_type_internal.
Qed.
End ScopeEngine.

Lemma balance_get_type unidecode float_str self depth :
  forall stack schema name auto_alias,
    keeps (scoped "$id" stack) (fun _ => True)
          (APIv4.get_type unidecode float_str self depth schema name
             auto_alias) (fun _ => True).
Proof.
  induction depth as [|depth IH]; intros stack schema name auto_alias.
  - intros s _. exact I.
  - cbn [APIv4.get_type]. apply balance_get_type_body. exact IH.
Qed.

(** X8: when no dictionary of the store has the key [$id], a translation
    that returns or raises leaves the scope stack as it found it: every
    scope pushed for a reference has been popped again. *)
Theorem translation_without_id_restores_scopes unidecode float_str self depth
    schema name auto_alias s :
  Forall (fun d => dict_has "$id" d = false) (heap s) ->
  match APIv4.get_type unidecode float_str self depth schema name auto_alias s
  with
  | Ok _ s' | Raise _ s' =>
      scopes s' = scopes s
      /\ Forall (fun d => dict_has "$id" d = false) (heap s')
  | NoFuel _ => True
  end.
Proof.
  intros Hno.
  pose proof (balance_get_type unidecode float_str self depth (scopes s)
                schema name auto_alias s (conj eq_refl Hno)) as H.
  destruct (APIv4.get_type _ _ _ _ _ _ _ s) as [t s'|e s'|s'];
    [destruct H as [H _]; exact H|exact H|exact I].
Qed.

Lemma translation_without_id_restores_scopes_witness :
  exists type_ s',
    translate 4 doc_point 0 = Ok type_ s'
    /\ scopes s' = [""].
Proof.
  assert (Hno : Forall (fun d => dict_has "$id" d = false)
                       (heap (fresh doc_point)))
    by (repeat constructor).
  pose proof (translation_without_id_restores_scopes unidecode_ascii
                float_str_none (engine 0) 4 (JDict 0) "Base" true
                (fresh doc_point) Hno) as H.
  fold (translate 4 doc_point 0) in H.
  destruct (translate 4 doc_point 0) as [type_ s'|e s'|s'] eqn:E;
    [|vm_compute in E; discriminate..].
  exists type_, s'. split; [reflexivity|apply H].
Defined.
